(** * Fitness-tracker: the pose-to-repetition engine

    A shallow embedding of the buffered webcam component
    (client/src/pages/Workouts.jsx, function [WebCam]) and of the count store
    it publishes to (WorkoutContext: [WorkoutProvider]).

    Numbers.  A JavaScript number is an IEEE 754 binary64 value; keypoint
    coordinates, confidence scores and frame sizes are modelled by Rocq's
    primitive [float], whose operations are the same binary64 operations.
    [Date.now()] readings and repetition counts are integers far below 2^53,
    where binary64 arithmetic is exact; they are modelled by [Z]. *)

From Stdlib Require Import ZArith List Bool Lia.
From Stdlib Require Import Floats.PrimFloat.
From Stdlib Require Floats.SpecFloat Floats.FloatOps Floats.FloatAxioms.
From Stdlib Require String.
Import ListNotations.

Set Warnings "-inexact-float".
Local Open Scope Z_scope.

(** ** JavaScript comparisons that PrimFloat does not name *)

Module JS.

Definition gtb (a b : float) : bool := (b <? a)%float.
Definition geb (a b : float) : bool := (b <=? a)%float.
Definition isNaN (a : float) : bool := is_nan a.

End JS.

Notation "a >? b" := (JS.gtb a b) (at level 70, no associativity) : float_scope.
Notation "a >=? b" := (JS.geb a b) (at level 70, no associativity) : float_scope.

(** ** Keypoints *)

(** The seventeen MoveNet landmarks, in the order of [KEYPOINT_INDEX]. *)
Inductive KeypointName :=
  | nose | left_eye | right_eye | left_ear | right_ear
  | left_shoulder | right_shoulder | left_elbow | right_elbow
  | left_wrist | right_wrist | left_hip | right_hip
  | left_knee | right_knee | left_ankle | right_ankle.

Definition KEYPOINT_INDEX (name : KeypointName) : nat :=
  match name with
  | nose => 0 | left_eye => 1 | right_eye => 2 | left_ear => 3
  | right_ear => 4 | left_shoulder => 5 | right_shoulder => 6
  | left_elbow => 7 | right_elbow => 8 | left_wrist => 9
  | right_wrist => 10 | left_hip => 11 | right_hip => 12
  | left_knee => 13 | right_knee => 14 | left_ankle => 15
  | right_ankle => 16
  end%nat.

Definition all_names : list KeypointName :=
  [nose; left_eye; right_eye; left_ear; right_ear; left_shoulder;
   right_shoulder; left_elbow; right_elbow; left_wrist; right_wrist;
   left_hip; right_hip; left_knee; right_knee; left_ankle; right_ankle].

(** A keypoint object [{x, y, score}].  A missing [score] ([undefined] or
    [null]) is [None]; an entry of the array that is itself [null] or
    [undefined] is [None] at the level of the array. *)
Record Keypoint := mkKeypoint {
  kp_x : float;
  kp_y : float;
  kp_score : option float
}.

Definition Keypoints := list (option Keypoint).

(** [getKeypointByName] (Workouts.jsx, lines 327-335). *)
Definition getKeypointByName (keypoints : option Keypoints)
    (name : KeypointName) (videoWidth videoHeight : float) : option Keypoint :=
  let idx := KEYPOINT_INDEX name in
  match keypoints with
  | None => None
  | Some kps =>
    match nth_error kps idx with
    | Some (Some kp) =>
      match kp_score kp with
      | None => None
      | Some sc =>
        if (sc <? 0.2)%float then None
        else
          let x := (kp_x kp * videoWidth)%float in
          let y := (kp_y kp * videoHeight)%float in
          if JS.isNaN x || JS.isNaN y then None
          else Some (mkKeypoint x y (kp_score kp))
      end
    | _ => None
    end
  end.

(** The raw keypoint found at a name's index, if any ([keypoints?.[idx]]). *)
Definition rawKeypoint (keypoints : option Keypoints) (name : KeypointName)
    : option Keypoint :=
  match keypoints with
  | None => None
  | Some kps =>
    match nth_error kps (KEYPOINT_INDEX name) with
    | Some (Some kp) => Some kp
    | _ => None
    end
  end.

(** The disqualifying conditions as the code tests them. *)
Definition scoreRejected (kp : Keypoint) : bool :=
  match kp_score kp with
  | None => true
  | Some sc => (sc <? 0.2)%float
  end.

Definition rescaledNaN (kp : Keypoint) (videoWidth videoHeight : float) : bool :=
  JS.isNaN (kp_x kp * videoWidth)%float || JS.isNaN (kp_y kp * videoHeight)%float.

(** The disqualifying conditions as the specification words them: a
    coordinate that is not a finite number after the rescale. *)
Definition rescaledNotFinite (kp : Keypoint) (videoWidth videoHeight : float) : bool :=
  negb (is_finite (kp_x kp * videoWidth)%float)
  || negb (is_finite (kp_y kp * videoHeight)%float).

(** Validation as the specification words it, for one landmark of a
    frame: the keypoint is missing, its score is missing or below 0.2, or
    a coordinate is not finite after the rescale. *)
Definition failsValidationAsWorded (keypoints : option Keypoints)
    (name : KeypointName) (videoWidth videoHeight : float) : bool :=
  match rawKeypoint keypoints name with
  | None => true
  | Some kp => scoreRejected kp || rescaledNotFinite kp videoWidth videoHeight
  end.

Definition rescale (kp : Keypoint) (videoWidth videoHeight : float) : Keypoint :=
  mkKeypoint (kp_x kp * videoWidth)%float (kp_y kp * videoHeight)%float (kp_score kp).

(** ** Counts *)

(** The seven keys of [defaultLocalCounts] and of the provider's [counts],
    in insertion order. *)
Inductive CountKey :=
  | handLifts | eyeBlinks | pushUps | highJumps | squats | jumpingJacks | lunges.

Definition CountKey_eqb (a b : CountKey) : bool :=
  match a, b with
  | handLifts, handLifts | eyeBlinks, eyeBlinks | pushUps, pushUps
  | highJumps, highJumps | squats, squats | jumpingJacks, jumpingJacks
  | lunges, lunges => true
  | _, _ => false
  end.

(** A counts object.  Both objects of the program are created with exactly
    these seven keys and are only ever indexed by them, so the [?? 0]
    defaults of the source never fire and a record is the object. *)
Record Counts := mkCounts {
  c_handLifts : Z;
  c_eyeBlinks : Z;
  c_pushUps : Z;
  c_highJumps : Z;
  c_squats : Z;
  c_jumpingJacks : Z;
  c_lunges : Z
}.

(** [obj[key]] *)
Definition get (c : Counts) (key : CountKey) : Z :=
  match key with
  | handLifts => c_handLifts c
  | eyeBlinks => c_eyeBlinks c
  | pushUps => c_pushUps c
  | highJumps => c_highJumps c
  | squats => c_squats c
  | jumpingJacks => c_jumpingJacks c
  | lunges => c_lunges c
  end.

(** [{ ...obj, [key]: value }], also the result of [obj[key] = value]. *)
Definition set (c : Counts) (key : CountKey) (value : Z) : Counts :=
  match key with
  | handLifts => mkCounts value (c_eyeBlinks c) (c_pushUps c) (c_highJumps c) (c_squats c) (c_jumpingJacks c) (c_lunges c)
  | eyeBlinks => mkCounts (c_handLifts c) value (c_pushUps c) (c_highJumps c) (c_squats c) (c_jumpingJacks c) (c_lunges c)
  | pushUps => mkCounts (c_handLifts c) (c_eyeBlinks c) value (c_highJumps c) (c_squats c) (c_jumpingJacks c) (c_lunges c)
  | highJumps => mkCounts (c_handLifts c) (c_eyeBlinks c) (c_pushUps c) value (c_squats c) (c_jumpingJacks c) (c_lunges c)
  | squats => mkCounts (c_handLifts c) (c_eyeBlinks c) (c_pushUps c) (c_highJumps c) value (c_jumpingJacks c) (c_lunges c)
  | jumpingJacks => mkCounts (c_handLifts c) (c_eyeBlinks c) (c_pushUps c) (c_highJumps c) (c_squats c) value (c_lunges c)
  | lunges => mkCounts (c_handLifts c) (c_eyeBlinks c) (c_pushUps c) (c_highJumps c) (c_squats c) (c_jumpingJacks c) value
  end.

(** [Object.keys(localCountsRef.current)] *)
Definition keys : list CountKey :=
  [handLifts; eyeBlinks; pushUps; highJumps; squats; jumpingJacks; lunges].

Definition defaultLocalCounts : Counts := mkCounts 0 0 0 0 0 0 0.

(** ** Detector state ([stateRef.current]) *)

Inductive UpDown := up | down.
Inductive OpenClosed := closed | open.

Record LastTimes := mkLastTimes {
  blink : Z;
  pushUp : Z;
  highJump : Z;
  squat : Z;
  jumpingJack : Z;
  lunge : Z
}.

Record StateRef := mkStateRef {
  handLifted : bool;
  blinkDetected : bool;
  pushUpState : UpDown;
  highJumpState : UpDown;
  squatState : UpDown;
  jumpingJackState : OpenClosed;
  lungeState : UpDown;
  lastTimes : LastTimes
}.

Definition initialStateRef : StateRef :=
  mkStateRef false false up down up closed up (mkLastTimes 0 0 0 0 0 0).

(** Field assignments [s.field = v] and [lt.field = v]. *)
Definition set_handLifted (v : bool) (s : StateRef) : StateRef :=
  mkStateRef v (blinkDetected s) (pushUpState s) (highJumpState s) (squatState s) (jumpingJackState s) (lungeState s) (lastTimes s).
Definition set_blinkDetected (v : bool) (s : StateRef) : StateRef :=
  mkStateRef (handLifted s) v (pushUpState s) (highJumpState s) (squatState s) (jumpingJackState s) (lungeState s) (lastTimes s).
Definition set_pushUpState (v : UpDown) (s : StateRef) : StateRef :=
  mkStateRef (handLifted s) (blinkDetected s) v (highJumpState s) (squatState s) (jumpingJackState s) (lungeState s) (lastTimes s).
Definition set_highJumpState (v : UpDown) (s : StateRef) : StateRef :=
  mkStateRef (handLifted s) (blinkDetected s) (pushUpState s) v (squatState s) (jumpingJackState s) (lungeState s) (lastTimes s).
Definition set_squatState (v : UpDown) (s : StateRef) : StateRef :=
  mkStateRef (handLifted s) (blinkDetected s) (pushUpState s) (highJumpState s) v (jumpingJackState s) (lungeState s) (lastTimes s).
Definition set_jumpingJackState (v : OpenClosed) (s : StateRef) : StateRef :=
  mkStateRef (handLifted s) (blinkDetected s) (pushUpState s) (highJumpState s) (squatState s) v (lungeState s) (lastTimes s).
Definition set_lungeState (v : UpDown) (s : StateRef) : StateRef :=
  mkStateRef (handLifted s) (blinkDetected s) (pushUpState s) (highJumpState s) (squatState s) (jumpingJackState s) v (lastTimes s).
Definition set_lastTimes (v : LastTimes) (s : StateRef) : StateRef :=
  mkStateRef (handLifted s) (blinkDetected s) (pushUpState s) (highJumpState s) (squatState s) (jumpingJackState s) (lungeState s) v.

Definition set_blink (v : Z) (lt : LastTimes) : LastTimes :=
  mkLastTimes v (pushUp lt) (highJump lt) (squat lt) (jumpingJack lt) (lunge lt).
Definition set_pushUp (v : Z) (lt : LastTimes) : LastTimes :=
  mkLastTimes (blink lt) v (highJump lt) (squat lt) (jumpingJack lt) (lunge lt).
Definition set_highJump (v : Z) (lt : LastTimes) : LastTimes :=
  mkLastTimes (blink lt) (pushUp lt) v (squat lt) (jumpingJack lt) (lunge lt).
Definition set_squat (v : Z) (lt : LastTimes) : LastTimes :=
  mkLastTimes (blink lt) (pushUp lt) (highJump lt) v (jumpingJack lt) (lunge lt).
Definition set_jumpingJack (v : Z) (lt : LastTimes) : LastTimes :=
  mkLastTimes (blink lt) (pushUp lt) (highJump lt) (squat lt) v (lunge lt).
Definition set_lunge (v : Z) (lt : LastTimes) : LastTimes :=
  mkLastTimes (blink lt) (pushUp lt) (highJump lt) (squat lt) (jumpingJack lt) v.

(** The two mutable cells the detector blocks write: [stateRef.current] and
    [localCountsRef.current]. *)
Definition Refs := (StateRef * Counts)%type.

(** [bufferIncrement] (lines 338-340). *)
Definition bufferIncrement (key : CountKey) (c : Counts) : Counts :=
  set c key (get c key + 1).

(** ** The seven detector blocks of [detectAndProcess] (lines 403-486)

    Each takes the filtered keypoints it reads, the frame's size and [now]
    where the source uses them, and the two cells. *)

Definition UpDown_eqb (a b : UpDown) : bool :=
  match a, b with up, up | down, down => true | _, _ => false end.
Definition OpenClosed_eqb (a b : OpenClosed) : bool :=
  match a, b with closed, closed | open, open => true | _, _ => false end.

Definition handLiftBlock (leftWrist leftShoulder : option Keypoint) (r : Refs) : Refs :=
  let '(s, c) := r in
  match leftWrist, leftShoulder with
  | Some lw, Some ls =>
    if (kp_y lw <? kp_y ls + 10)%float && negb (handLifted s) then
      (set_handLifted true s, bufferIncrement handLifts c)
    else if (kp_y lw >=? kp_y ls + 10)%float then
      (set_handLifted false s, c)
    else (s, c)
  | _, _ => (s, c)
  end.

Definition pushUpBlock (rightShoulderKP : option Keypoint) (videoHeight : float)
    (now : Z) (r : Refs) : Refs :=
  let '(s, c) := r in
  match rightShoulderKP with
  | Some rs =>
    let shoulderY := kp_y rs in
    if (shoulderY >? videoHeight * 0.45)%float && UpDown_eqb (pushUpState s) up
       && (now - pushUp (lastTimes s) >? 400) then
      (set_pushUpState down s, c)
    else if (shoulderY <? videoHeight * 0.25)%float && UpDown_eqb (pushUpState s) down then
      (set_lastTimes (set_pushUp now (lastTimes s)) (set_pushUpState up s),
       bufferIncrement pushUps c)
    else (s, c)
  | None => (s, c)
  end.

Definition highJumpBlock (leftAnkle rightAnkle : option Keypoint) (videoHeight : float)
    (now : Z) (r : Refs) : Refs :=
  let '(s, c) := r in
  match leftAnkle, rightAnkle with
  | Some la, Some ra =>
    let ankleAvgY := ((kp_y la + kp_y ra) / 2)%float in
    if (ankleAvgY <? videoHeight * 0.24)%float && UpDown_eqb (highJumpState s) down
       && (now - highJump (lastTimes s) >? 500) then
      (set_lastTimes (set_highJump now (lastTimes s)) (set_highJumpState up s),
       bufferIncrement highJumps c)
    else if (ankleAvgY >? videoHeight * 0.66)%float then
      (set_highJumpState down s, c)
    else (s, c)
  | _, _ => (s, c)
  end.

Definition squatBlock (leftKnee leftHip : option Keypoint) (now : Z) (r : Refs) : Refs :=
  let '(s, c) := r in
  match leftKnee, leftHip with
  | Some lk, Some lh =>
    if (kp_y lk >? kp_y lh + 40)%float && UpDown_eqb (squatState s) up
       && (now - squat (lastTimes s) >? 500) then
      (set_squatState down s, c)
    else if (kp_y lk <? kp_y lh + 10)%float && UpDown_eqb (squatState s) down then
      (set_lastTimes (set_squat now (lastTimes s)) (set_squatState up s),
       bufferIncrement squats c)
    else (s, c)
  | _, _ => (s, c)
  end.

Definition jumpingJackBlock (leftWrist rightWrist leftAnkle rightAnkle : option Keypoint)
    (videoWidth : float) (now : Z) (r : Refs) : Refs :=
  let '(s, c) := r in
  match leftWrist, rightWrist, leftAnkle, rightAnkle with
  | Some lw, Some rw, Some la, Some ra =>
    let armSpread := abs (kp_x lw - kp_x rw)%float in
    let legSpread := abs (kp_x la - kp_x ra)%float in
    if (armSpread >? videoWidth * 0.34)%float && (legSpread >? videoWidth * 0.18)%float
       && OpenClosed_eqb (jumpingJackState s) closed
       && (now - jumpingJack (lastTimes s) >? 350) then
      (set_lastTimes (set_jumpingJack now (lastTimes s)) (set_jumpingJackState open s),
       bufferIncrement jumpingJacks c)
    else if (armSpread <? videoWidth * 0.12)%float && (legSpread <? videoWidth * 0.06)%float then
      (set_jumpingJackState closed s, c)
    else (s, c)
  | _, _, _, _ => (s, c)
  end.

Definition lungeBlock (rightKnee rightHip : option Keypoint) (now : Z) (r : Refs) : Refs :=
  let '(s, c) := r in
  match rightKnee, rightHip with
  | Some rk, Some rh =>
    let kneeHipDistance := abs (kp_y rk - kp_y rh)%float in
    if (kneeHipDistance >? 80)%float && (kp_x rk >? kp_x rh + 10)%float
       && UpDown_eqb (lungeState s) up
       && (now - lunge (lastTimes s) >? 500) then
      (set_lungeState down s, c)
    else if (kneeHipDistance <? 40)%float && UpDown_eqb (lungeState s) down then
      (set_lastTimes (set_lunge now (lastTimes s)) (set_lungeState up s),
       bufferIncrement lunges c)
    else (s, c)
  | _, _ => (s, c)
  end.

(** ** The component and the store *)

(** What the component holds while mounted under a [WorkoutProvider]:
    - [stateRef], [localCountsRef], [lastContextFlush]: its three refs;
    - [providerCounts]: the provider's [counts] state, the published store;
    - [counts]: the value of [context.counts] that the current
      [flushCountsToContext] closure captured at the last render (the
      effect restarts the frame loop with the new closure at each render;
      the frames of a run are those of the loop in force). *)
Record World := mkWorld {
  stateRef : StateRef;
  localCountsRef : Counts;
  lastContextFlush : Z;
  counts : Counts;
  providerCounts : Counts
}.

(** One pose frame as [detectAndProcess] sees it: [pose?.keypoints]
    ([None] when no pose was returned), the video size, and the two clock
    readings of the run, [Date.now()] at line 383 and at line 345. *)
Record Frame := mkFrame {
  keypoints : option Keypoints;
  videoWidth : float;
  videoHeight : float;
  now : Z;
  flushNow : Z
}.

(** [updateCount] of the provider (WorkoutContext, lines 16-18), as the
    function it hands to [setCounts]. *)
Definition updateCount (key : CountKey) (value : Z) (prev : Counts) : Counts :=
  set prev key value.

(** The body of the [forEach] of [flushCountsToContext] for one key. *)
Definition flushKey (w : World) (k : CountKey) : World :=
  let localVal := get (localCountsRef w) k in
  let contextVal := get (counts w) k in
  if negb (localVal =? contextVal) then
    mkWorld (stateRef w) (localCountsRef w) (lastContextFlush w) (counts w)
            (updateCount k localVal (providerCounts w))
  else w.

(** [flushCountsToContext] (lines 343-358), given the reading of
    [Date.now()]. *)
Definition flushCountsToContext (now : Z) (w : World) : World :=
  if now - lastContextFlush w <? 800 then w
  else
    fold_left flushKey keys
      (mkWorld (stateRef w) (localCountsRef w) now (counts w) (providerCounts w)).

(** The state a freshly mounted component starts from; [t0] is the
    [Date.now()] that initialises [lastContextFlush] (line 295). *)
Definition mount (t0 : Z) : World :=
  mkWorld initialStateRef defaultLocalCounts t0 defaultLocalCounts defaultLocalCounts.

(** What happens to a mounted component: a frame is processed, or React
    re-renders it with the provider's current [counts]. *)
Inductive Event :=
  | Tick (f : Frame)
  | Render.

(** The detectors: each is named by the key it counts under. *)
Definition debounce (d : CountKey) : option Z :=
  match d with
  | handLifts => None
  | eyeBlinks => Some 250
  | pushUps => Some 400
  | highJumps => Some 500
  | squats => Some 500
  | jumpingJacks => Some 350
  | lunges => Some 500
  end.

(** [true] when the detector is in its active state, [false] at rest (the
    state it is initialised in). *)
Definition active (d : CountKey) (s : StateRef) : bool :=
  match d with
  | handLifts => handLifted s
  | eyeBlinks => blinkDetected s
  | pushUps => UpDown_eqb (pushUpState s) down
  | highJumps => UpDown_eqb (highJumpState s) up
  | squats => UpDown_eqb (squatState s) down
  | jumpingJacks => OpenClosed_eqb (jumpingJackState s) open
  | lunges => UpDown_eqb (lungeState s) down
  end.

(** The detector's debounce clock ([lastTimes]); the hand lift has none. *)
Definition lastTime (d : CountKey) (s : StateRef) : Z :=
  match d with
  | handLifts => 0
  | eyeBlinks => blink (lastTimes s)
  | pushUps => pushUp (lastTimes s)
  | highJumps => highJump (lastTimes s)
  | squats => squat (lastTimes s)
  | jumpingJacks => jumpingJack (lastTimes s)
  | lunges => lunge (lastTimes s)
  end.

(** Detectors that count on the way back to rest (the others count on
    entering the active state). *)
Definition emitsOnReturn (d : CountKey) : bool :=
  match d with
  | pushUps | squats | lunges => true
  | _ => false
  end.

(** The keypoints a detector reads. *)
Definition triggers (d : CountKey) : list KeypointName :=
  match d with
  | handLifts => [left_wrist; left_shoulder]
  | eyeBlinks => [left_eye; right_eye; nose]
  | pushUps => [right_shoulder]
  | highJumps => [left_ankle; right_ankle]
  | squats => [left_knee; left_hip]
  | jumpingJacks => [left_wrist; right_wrist; left_ankle; right_ankle]
  | lunges => [right_knee; right_hip]
  end.

Definition KeypointName_eqb (a b : KeypointName) : bool :=
  Nat.eqb (KEYPOINT_INDEX a) (KEYPOINT_INDEX b).

(** Shapes of a detector's sequence of states over a run. *)
Fixpoint allRest (l : list bool) : bool :=
  match l with
  | [] => true
  | a :: l' => negb a && allRest l'
  end.

Fixpoint activeThenRest (l : list bool) : bool :=
  match l with
  | [] => false
  | true :: l' => activeThenRest l'
  | false :: l' => allRest l'
  end.

(** rest, ..., rest, active, ..., active, rest, ..., rest: one cycle. *)
Fixpoint oneCycle (l : list bool) : bool :=
  match l with
  | false :: ((false :: _) as l') => oneCycle l'
  | false :: ((true :: l'') as l') => activeThenRest l'
  | _ => false
  end.

(** Consecutive elements more than [D] apart, and at least [D] apart. *)
Fixpoint gapped (D : Z) (l : list Z) : Prop :=
  match l with
  | a :: ((b :: _) as l') => b - a > D /\ gapped D l'
  | _ => True
  end.

Fixpoint gappedGe (D : Z) (l : list Z) : Prop :=
  match l with
  | a :: ((b :: _) as l') => b - a >= D /\ gappedGe D l'
  | _ => True
  end.

Fixpoint nondecreasing (l : list Z) : Prop :=
  match l with
  | a :: ((b :: _) as l') => a <= b /\ nondecreasing l'
  | _ => True
  end.

(** ** Leaving and re-entering the page

    In [App], the [WorkoutProvider] wraps the router and the component is
    the element of one route: navigating away unmounts the component and
    coming back mounts a fresh one (new refs, [lastContextFlush] set to
    the clock reading [t0]) under the same provider, whose [counts] are
    what they were. *)
Definition remount (t0 : Z) (w : World) : World :=
  mkWorld initialStateRef defaultLocalCounts t0 (providerCounts w) (providerCounts w).

Section Engine.

(** [Math.hypot] is the host's; the engine is modelled over any. *)
Variable hypot : float -> float -> float.

Definition blinkBlock (leftEye rightEye nose : option Keypoint) (now : Z) (r : Refs) : Refs :=
  let '(s, c) := r in
  match leftEye, rightEye, nose with
  | Some le, Some re, Some no =>
    let leftEyeToNose := hypot (kp_x le - kp_x no)%float (kp_y le - kp_y no)%float in
    let rightEyeToNose := hypot (kp_x re - kp_x no)%float (kp_y re - kp_y no)%float in
    let earAvg := ((leftEyeToNose + rightEyeToNose) / 2)%float in
    if (earAvg <? 80)%float && negb (blinkDetected s)
       && (now - blink (lastTimes s) >? 250) then
      (set_lastTimes (set_blink now (lastTimes s)) (set_blinkDetected true s),
       bufferIncrement eyeBlinks c)
    else if (earAvg >? 95)%float then
      (set_blinkDetected false s, c)
    else (s, c)
  | _, _, _ => (s, c)
  end.

(** The seven blocks in source order, on the filtered keypoints of [f]. *)
Definition detectors (f : Frame) (r : Refs) : Refs :=
  let kp name := getKeypointByName (keypoints f) name (videoWidth f) (videoHeight f) in
  let leftWrist := kp left_wrist in
  let rightWrist := kp right_wrist in
  let leftShoulder := kp left_shoulder in
  let leftEye := kp left_eye in
  let rightEye := kp right_eye in
  let nose := kp nose in
  let rightShoulderKP := kp right_shoulder in
  let leftAnkle := kp left_ankle in
  let rightAnkle := kp right_ankle in
  let leftKnee := kp left_knee in
  let leftHip := kp left_hip in
  let rightKnee := kp right_knee in
  let rightHip := kp right_hip in
  let r := handLiftBlock leftWrist leftShoulder r in
  let r := blinkBlock leftEye rightEye nose (now f) r in
  let r := pushUpBlock rightShoulderKP (videoHeight f) (now f) r in
  let r := highJumpBlock leftAnkle rightAnkle (videoHeight f) (now f) r in
  let r := squatBlock leftKnee leftHip (now f) r in
  let r := jumpingJackBlock leftWrist rightWrist leftAnkle rightAnkle (videoWidth f) (now f) r in
  lungeBlock rightKnee rightHip (now f) r.

(** [detectAndProcess] (lines 360-496) once the model and the video are
    ready: a frame without a pose or with fewer than 17 keypoints is
    skipped; otherwise the blocks run and a flush is attempted. *)
Definition detectAndProcess (f : Frame) (w : World) : World :=
  match keypoints f with
  | None => w
  | Some kps =>
    if (length kps <? 17)%nat then w
    else
      let '(s, c) := detectors f (stateRef w, localCountsRef w) in
      flushCountsToContext (flushNow f)
        (mkWorld s c (lastContextFlush w) (counts w) (providerCounts w))
  end.

Definition step (w : World) (ev : Event) : World :=
  match ev with
  | Tick f => detectAndProcess f w
  | Render =>
    mkWorld (stateRef w) (localCountsRef w) (lastContextFlush w)
            (providerCounts w) (providerCounts w)
  end.

Definition run (w : World) (evs : list Event) : World := fold_left step evs w.

(** Every state passed through, the first included. *)
Fixpoint trace (w : World) (evs : list Event) : list World :=
  match evs with
  | [] => [w]
  | ev :: evs' => w :: trace (step w ev) evs'
  end.

(** A repetition event of detector [d] is an increment of its buffer
    entry; [emitted] observes it across one step. *)
Definition emitted (d : CountKey) (w : World) (ev : Event) : bool :=
  negb (get (localCountsRef (step w ev)) d =? get (localCountsRef w) d).

Definition eventClock (ev : Event) : list Z :=
  match ev with
  | Tick f => [now f]
  | Render => []
  end.

(** The clock readings of the frames at which [d] emitted. *)
Fixpoint eventTimes (d : CountKey) (w : World) (evs : list Event) : list Z :=
  match evs with
  | [] => []
  | ev :: evs' =>
    (if emitted d w ev then eventClock ev else []) ++ eventTimes d (step w ev) evs'
  end.

(** A flush is a call of [flushCountsToContext] that gets past the
    interval test: it is the only code that moves [lastContextFlush]. *)
Definition flushed (w : World) (ev : Event) : bool :=
  negb (lastContextFlush (step w ev) =? lastContextFlush w).

Fixpoint flushTimes (w : World) (evs : list Event) : list Z :=
  match evs with
  | [] => []
  | ev :: evs' =>
    (if flushed w ev then [lastContextFlush (step w ev)] else [])
      ++ flushTimes (step w ev) evs'
  end.

(** Validation fails for every landmark of the frame. *)
Definition noValidKeypoint (f : Frame) : Prop :=
  forall name, getKeypointByName (keypoints f) name (videoWidth f) (videoHeight f) = None.

Definition noValidKeypointEv (ev : Event) : Prop :=
  match ev with
  | Tick f => noValidKeypoint f
  | Render => True
  end.

(** Only the landmarks in [names] pass validation. *)
Definition onlyValid (names : list KeypointName) (f : Frame) : bool :=
  forallb (fun name =>
    existsb (KeypointName_eqb name) names
    || match getKeypointByName (keypoints f) name (videoWidth f) (videoHeight f) with
       | None => true
       | Some _ => false
       end) all_names.

Definition phases (d : CountKey) (w : World) (evs : list Event) : list bool :=
  map (fun w' => active d (stateRef w')) (trace w evs).



(** What the program does of itself over its life: events of the mounted
    component, and remounts. *)
Inductive Action :=
  | Act (ev : Event)
  | Remount (t0 : Z).

Definition act (w : World) (a : Action) : World :=
  match a with
  | Act ev => step w ev
  | Remount t0 => remount t0 w
  end.

(** A state of the program together with whether the store has been
    brought in line with the buffer of the component now mounted: so at
    the first mount (both all zero), not right after a remount, and so
    again from the first flush after it. *)
Definition Session := (World * bool)%type.

Definition start (t0 : Z) : Session := (mount t0, true).

Definition sessionStep (s : Session) (a : Action) : Session :=
  (act (fst s) a,
   match a with
   | Act ev => snd s || flushed (fst s) ev
   | Remount _ => false
   end).

(** Every state passed through, the first included. *)
Fixpoint sessionTrace (s : Session) (acts : list Action) : list Session :=
  match acts with
  | [] => [s]
  | a :: acts' => s :: sessionTrace (sessionStep s a) acts'
  end.

End Engine.

(** ** Notions the proofs are stated with *)

(** What one detector reads and writes of the two cells: whether it is
    active, its debounce clock, and its count. *)
Definition View := (bool * Z * Z)%type.

Definition view (d : CountKey) (r : Refs) : View :=
  (active d (fst r), lastTime d (fst r), get (snd r) d).

(** The debounce test of [d] at clock reading [t]. *)
Definition debounced (d : CountKey) (t lt : Z) : Prop :=
  match debounce d with
  | Some D => t - lt > D
  | None => True
  end.

(** One frame's effect on a detector, in terms of its view only. *)
Definition detStep (d : CountKey) (t : Z) (v v' : View) : Prop :=
  let '(p, lt, c) := v in
  let '(p', lt', c') := v' in
  (p' = p /\ lt' = lt /\ c' = c)
  \/ (if emitsOnReturn d then
        (p = false /\ p' = true /\ lt' = lt /\ c' = c /\ debounced d t lt)
        \/ (p = true /\ p' = false /\ lt' = t /\ c' = c + 1)
      else
        (p = false /\ p' = true /\ c' = c + 1 /\ debounced d t lt
         /\ lt' = match debounce d with Some _ => t | None => lt end)
        \/ (p' = false /\ lt' = lt /\ c' = c)).

(** A counted transition: into the active state for the detectors that
    count on entry, back to rest for those that count on return. *)
Definition counted (d : CountKey) (p p' : bool) : bool :=
  if emitsOnReturn d then p && negb p' else negb p && p'.

(** The two cells the blocks work on, out of the component's state. *)
Definition refs (w : World) : Refs := (stateRef w, localCountsRef w).

(** How many counted transitions a sequence of states contains. *)
Fixpoint countedTransitions (d : CountKey) (l : list bool) : Z :=
  match l with
  | a :: ((b :: _) as l') => (if counted d a b then 1 else 0) + countedTransitions d l'
  | _ => 0
  end.

(** No change of state at all. *)
Definition quiet (l : list bool) : bool :=
  match l with
  | [] => true
  | a :: l' => forallb (Bool.eqb a) l'
  end.

(** The [now] of the frames of a run, in order. *)
Definition clocks (evs : list Event) : list Z := flat_map eventClock evs.

(** The store never runs ahead of the buffer, nor the captured [counts]
    ahead of the store. *)
Definition Inv (w : World) : Prop :=
  forall k, get (counts w) k <= get (providerCounts w) k
            /\ get (providerCounts w) k <= get (localCountsRef w) k.

(** The push-up block as a function of the detector's view. *)
Definition pushUpView (rs : Keypoint) (H : float) (t : Z) (v : View) : View :=
  let '(p, lt, c) := v in
  if (kp_y rs >? H * 0.45)%float && negb p && (t - lt >? 400) then (true, lt, c)
  else if (kp_y rs <? H * 0.25)%float && p then (false, t, c + 1)
  else (p, lt, c).

(** What is known of a state of the program: once settled, no store
    entry exceeds the buffer's; until then the captured [counts] are the
    store's. *)
Definition SInv (s : Session) : Prop :=
  (snd s = true ->
   forall k, get (providerCounts (fst s)) k <= get (localCountsRef (fst s)) k)
  /\ (snd s = false ->
      forall k, get (counts (fst s)) k = get (providerCounts (fst s)) k).


(** * Concrete frames *)

(** A host [Math.hypot] to run the engine with. *)
Definition jsHypot (a b : float) : float := sqrt (a * a + b * b)%float.

(** Building keypoint arrays from the landmarks that are present. *)
Fixpoint lookupKp (name : KeypointName) (l : list (KeypointName * Keypoint)) : option Keypoint :=
  match l with
  | [] => None
  | (n, kp) :: l' => if KeypointName_eqb name n then Some kp else lookupKp name l'
  end.

(** The 17-slot array holding the given keypoints, [null] elsewhere. *)
Definition pose (l : list (KeypointName * Keypoint)) : option Keypoints :=
  Some (map (fun name => lookupKp name l) all_names).

(** A confident keypoint at normalised coordinates. *)
Definition kp (x y : float) : Keypoint := mkKeypoint x y (Some 0.9%float).

(** Jumping jack, arms and legs spread, the ankles high in a 640x480 frame. *)
Definition jackOpen : Frame :=
  mkFrame (pose [(left_wrist, kp 0.1 0.5); (right_wrist, kp 0.9 0.5);
                 (left_ankle, kp 0.2 0.1); (right_ankle, kp 0.8 0.1)])
          640 480 1000 1000.

(** Arms and legs together again, one second later. *)
Definition jackClosed : Frame :=
  mkFrame (pose [(left_wrist, kp 0.5 0.5); (right_wrist, kp 0.55 0.5);
                 (left_ankle, kp 0.5 0.1); (right_ankle, kp 0.52 0.1)])
          640 480 2000 2000.

(** Left wrist above the left shoulder, then below it. *)
Definition handUp : Frame :=
  mkFrame (pose [(left_wrist, kp 0.5 0.25); (left_shoulder, kp 0.5 0.5)])
          640 480 1000 1000.

Definition handDown : Frame :=
  mkFrame (pose [(left_wrist, kp 0.5 0.75); (left_shoulder, kp 0.5 0.5)])
          640 480 2000 2000.

(** Right shoulder low (288 of 480) and high (48 of 480) at a given time. *)
Definition shoulderLow (t : Z) : Frame :=
  mkFrame (pose [(right_shoulder, kp 0.5 0.6)]) 640 480 t t.

Definition shoulderHigh (t : Z) : Frame :=
  mkFrame (pose [(right_shoulder, kp 0.5 0.1)]) 640 480 t t.

(** Ten push-up oscillations within 100 ms. *)
Definition oscillation : list Event :=
  [Tick (shoulderLow 1000); Tick (shoulderHigh 1005); Tick (shoulderLow 1010);
   Tick (shoulderHigh 1015); Tick (shoulderLow 1020); Tick (shoulderHigh 1025);
   Tick (shoulderLow 1030); Tick (shoulderHigh 1035); Tick (shoulderLow 1040);
   Tick (shoulderHigh 1045); Tick (shoulderLow 1050); Tick (shoulderHigh 1055);
   Tick (shoulderLow 1060); Tick (shoulderHigh 1065); Tick (shoulderLow 1070);
   Tick (shoulderHigh 1075); Tick (shoulderLow 1080); Tick (shoulderHigh 1085);
   Tick (shoulderLow 1090); Tick (shoulderHigh 1095)].

(** A full skeleton that fails validation everywhere: low confidence, a
    missing score, a NaN coordinate, and empty slots. *)
Definition unusable : Frame :=
  mkFrame (pose [(left_wrist, mkKeypoint 0.5 0.25 (Some 0.1%float));
                 (left_shoulder, mkKeypoint 0.5 0.5 None);
                 (right_shoulder, mkKeypoint nan 0.6 (Some 0.9%float))])
          640 480 1000 1000.

(** Left wrist and left shoulder off the scale: both y are infinite. *)
Definition offScale : Frame :=
  mkFrame (pose [(left_wrist, kp 0.5 neg_infinity); (left_shoulder, kp 0.5 infinity)])
          640 480 1000 1000.

(** A keypoint whose x is infinite. *)
Definition farAway : Keypoint := mkKeypoint infinity 0.5 (Some 0.9%float).

Import String.StringSyntax.
Delimit Scope string_scope with string.
Bind Scope string_scope with String.string.

(** * More of the buffered component *)

(** A frame [detectAndProcess] returns from before the blocks: no pose, or
    fewer than 17 keypoints. *)
Definition skipped (f : Frame) : bool :=
  match keypoints f with
  | None => true
  | Some kps => (length kps <? 17)%nat
  end.

(** The frames of a run. *)
Definition ticks (evs : list Event) : list Frame :=
  flat_map (fun ev => match ev with Tick f => [f] | Render => [] end) evs.

Section EngineMore.

Variable hypot : float -> float -> float.

(** The block of detector [d] on its own, fed the filtered keypoints of
    [f] as [detectAndProcess] feeds them. *)
Definition blockOf (d : CountKey) (f : Frame) (r : Refs) : Refs :=
  let kp name := getKeypointByName (keypoints f) name (videoWidth f) (videoHeight f) in
  match d with
  | handLifts => handLiftBlock (kp left_wrist) (kp left_shoulder) r
  | eyeBlinks => blinkBlock hypot (kp left_eye) (kp right_eye) (kp nose) (now f) r
  | pushUps => pushUpBlock (kp right_shoulder) (videoHeight f) (now f) r
  | highJumps => highJumpBlock (kp left_ankle) (kp right_ankle) (videoHeight f) (now f) r
  | squats => squatBlock (kp left_knee) (kp left_hip) (now f) r
  | jumpingJacks =>
    jumpingJackBlock (kp left_wrist) (kp right_wrist) (kp left_ankle) (kp right_ankle)
      (videoWidth f) (now f) r
  | lunges => lungeBlock (kp right_knee) (kp right_hip) (now f) r
  end.

(** [earAvg] of the blink block. *)
Definition earAvg (le re no : Keypoint) : float :=
  ((hypot (kp_x le - kp_x no) (kp_y le - kp_y no)
    + hypot (kp_x re - kp_x no) (kp_y re - kp_y no)) / 2)%float.

(** The geometric test of the transition of [d] that does not count: back
    to rest for the detectors that count on entry, into the active state
    for those that count on return.  [false] when the block is skipped. *)
Definition rearms (d : CountKey) (f : Frame) : bool :=
  let kp name := getKeypointByName (keypoints f) name (videoWidth f) (videoHeight f) in
  match d with
  | handLifts =>
    match kp left_wrist, kp left_shoulder with
    | Some lw, Some ls => (kp_y lw >=? kp_y ls + 10)%float
    | _, _ => false
    end
  | eyeBlinks =>
    match kp left_eye, kp right_eye, kp nose with
    | Some le, Some re, Some no => (earAvg le re no >? 95)%float
    | _, _, _ => false
    end
  | pushUps =>
    match kp right_shoulder with
    | Some rs => (kp_y rs >? videoHeight f * 0.45)%float
    | None => false
    end
  | highJumps =>
    match kp left_ankle, kp right_ankle with
    | Some la, Some ra => ((kp_y la + kp_y ra) / 2 >? videoHeight f * 0.66)%float
    | _, _ => false
    end
  | squats =>
    match kp left_knee, kp left_hip with
    | Some lk, Some lh => (kp_y lk >? kp_y lh + 40)%float
    | _, _ => false
    end
  | jumpingJacks =>
    match kp left_wrist, kp right_wrist, kp left_ankle, kp right_ankle with
    | Some lw, Some rw, Some la, Some ra =>
      (abs (kp_x lw - kp_x rw) <? videoWidth f * 0.12)%float
      && (abs (kp_x la - kp_x ra) <? videoWidth f * 0.06)%float
    | _, _, _, _ => false
    end
  | lunges =>
    match kp right_knee, kp right_hip with
    | Some rk, Some rh =>
      (abs (kp_y rk - kp_y rh) >? 80)%float && (kp_x rk >? kp_x rh + 10)%float
    | _, _ => false
    end
  end.

(** The geometric test of the transition of [d] that counts: into the
    active state for the detectors that count on entry, back to rest for
    those that count on return.  [false] when the block is skipped. *)
Definition fires (d : CountKey) (f : Frame) : bool :=
  let kp name := getKeypointByName (keypoints f) name (videoWidth f) (videoHeight f) in
  match d with
  | handLifts =>
    match kp left_wrist, kp left_shoulder with
    | Some lw, Some ls => (kp_y lw <? kp_y ls + 10)%float
    | _, _ => false
    end
  | eyeBlinks =>
    match kp left_eye, kp right_eye, kp nose with
    | Some le, Some re, Some no => (earAvg le re no <? 80)%float
    | _, _, _ => false
    end
  | pushUps =>
    match kp right_shoulder with
    | Some rs => (kp_y rs <? videoHeight f * 0.25)%float
    | None => false
    end
  | highJumps =>
    match kp left_ankle, kp right_ankle with
    | Some la, Some ra => ((kp_y la + kp_y ra) / 2 <? videoHeight f * 0.24)%float
    | _, _ => false
    end
  | squats =>
    match kp left_knee, kp left_hip with
    | Some lk, Some lh => (kp_y lk <? kp_y lh + 10)%float
    | _, _ => false
    end
  | jumpingJacks =>
    match kp left_wrist, kp right_wrist, kp left_ankle, kp right_ankle with
    | Some lw, Some rw, Some la, Some ra =>
      (abs (kp_x lw - kp_x rw) >? videoWidth f * 0.34)%float
      && (abs (kp_x la - kp_x ra) >? videoWidth f * 0.18)%float
    | _, _, _, _ => false
    end
  | lunges =>
    match kp right_knee, kp right_hip with
    | Some rk, Some rh => (abs (kp_y rk - kp_y rh) <? 40)%float
    | _, _ => false
    end
  end.

(** The two columns of a detector's table row, as tests on a frame: the
    "enter active" condition and the "return to rest" condition, each
    with the detector's trigger keypoints valid. *)
Definition enters (d : CountKey) (f : Frame) : bool :=
  if emitsOnReturn d then rearms d f else fires d f.

Definition returns (d : CountKey) (f : Frame) : bool :=
  if emitsOnReturn d then fires d f else rearms d f.

(** A sequence of events that follows the row of [d] through one cycle
    from rest: events under which it does not enter, a processed frame
    [fe] that meets the enter condition (with the debounce clock of [d],
    [lt], more than its interval behind the frame's clock), events under
    which it does not return, a processed frame [fr] that meets the
    return condition, and events under which it does not enter again. *)
Definition rowCycle (d : CountKey) (lt : Z)
    (pre : list Event) (fe : Frame) (hold : list Event) (fr : Frame)
    (post : list Event) : Prop :=
  (forall f, In f (ticks pre) -> enters d f = false)
  /\ skipped fe = false /\ enters d fe = true /\ debounced d (now fe) lt
  /\ (forall f, In f (ticks hold) -> returns d f = false)
  /\ skipped fr = false /\ returns d fr = true
  /\ (forall f, In f (ticks post) -> enters d f = false).

End EngineMore.


(** No transition against the counting direction between neighbours of a
    sequence of states. *)
Fixpoint noBack (d : CountKey) (l : list bool) : bool :=
  match l with
  | a :: ((b :: _) as l') => negb (counted d b a) && noBack d l'
  | _ => true
  end.

(** The geometric test that lifts the hand: valid left wrist and left
    shoulder with wrist.y < shoulder.y + 10. *)
Definition lifts (f : Frame) : bool :=
  match getKeypointByName (keypoints f) left_wrist (videoWidth f) (videoHeight f),
        getKeypointByName (keypoints f) left_shoulder (videoWidth f) (videoHeight f) with
  | Some lw, Some ls => (kp_y lw <? kp_y ls + 10)%float
  | _, _ => false
  end.

(** A run of hand lifts: each pair is a frame and the frame after it. *)
Definition pairEvents (pairs : list (Frame * Frame)) : list Event :=
  flat_map (fun p => [Tick (fst p); Tick (snd p)]) pairs.

(** * The unbuffered component (WebCam.jsx) *)

Module Unbuffered.

(** A [score] field as JavaScript sees it: absent, [null], or a number. *)
Inductive Score :=
  | ScoreUndefined
  | ScoreNull
  | ScoreNumber (v : float).

(** A keypoint as the model returns it, with its [name] ([None] when the
    field is missing).  A missing coordinate behaves as NaN in every test
    and product of this component and is represented by it. *)
Record NamedKeypoint := mkNamed {
  kp_name : option String.string;
  nk_x : float;
  nk_y : float;
  nk_score : Score
}.

(** [!a] for a number: zero (of either sign) and NaN are falsy. *)
Definition falsy (a : float) : bool := is_zero a || is_nan a.

Definition nameIs (name : String.string) (k : NamedKeypoint) : bool :=
  match kp_name k with
  | Some n => String.eqb n name
  | None => false
  end.

(** [kp.score < 0.2]: [undefined] converts to NaN and compares [false],
    [null] converts to 0 and compares [true]. *)
Definition scoreBelow (k : NamedKeypoint) : bool :=
  match nk_score k with
  | ScoreUndefined => false
  | ScoreNull => true
  | ScoreNumber sc => (sc <? 0.2)%float
  end.

(** [getKeypoint] (WebCam.jsx, lines 116-123). *)
Definition getKeypoint (keypoints : list NamedKeypoint) (name : String.string)
    : option NamedKeypoint :=
  match find (nameIs name) keypoints with
  | None => None
  | Some k =>
    let x := nk_x k in
    let y := nk_y k in
    if falsy x || falsy y || JS.isNaN x || JS.isNaN y || scoreBelow k then None
    else Some (mkNamed (kp_name k) (x * 640)%float (y * 480)%float (nk_score k))
  end.

Definition y_of (k : NamedKeypoint) : float := nk_y k.
Definition x_of (k : NamedKeypoint) : float := nk_x k.

(** The component's refs are the fields of a [StateRef]; the second cell
    is the provider's [counts].  [counts] below is the value of
    [context.counts] that [detectPose] closed over: the interval that
    calls [detectPose] is set up by an effect that depends on [detector]
    only, so it keeps calling the [detectPose] of the render in which the
    detector was set, whatever the provider's state becomes. *)
Definition Cells := (StateRef * Counts)%type.

Definition handLiftBlock (counts : Counts) (leftWrist leftShoulder : option NamedKeypoint)
    (r : Cells) : Cells :=
  let '(s, store) := r in
  match leftWrist, leftShoulder with
  | Some lw, Some ls =>
    if (y_of lw <? y_of ls + 10)%float then
      if negb (handLifted s) then
        (set_handLifted true s, updateCount handLifts (get counts handLifts + 1) store)
      else (s, store)
    else (set_handLifted false s, store)
  | _, _ => (s, store)
  end.

Section Host.

Variable hypot : float -> float -> float.

Definition blinkBlock (counts : Counts) (leftEye rightEye nose : option NamedKeypoint)
    (currentTime : Z) (r : Cells) : Cells :=
  let '(s, store) := r in
  match leftEye, rightEye, nose with
  | Some le, Some re, Some no =>
    let leftEyeToNose := hypot (x_of le - x_of no)%float (y_of le - y_of no)%float in
    let rightEyeToNose := hypot (x_of re - x_of no)%float (y_of re - y_of no)%float in
    let earAvg := ((leftEyeToNose + rightEyeToNose) / 2)%float in
    if (earAvg <? 100)%float && negb (blinkDetected s)
       && (currentTime - blink (lastTimes s) >? 50) && negb (JS.isNaN earAvg) then
      (set_lastTimes (set_blink currentTime (lastTimes s)) (set_blinkDetected true s),
       updateCount eyeBlinks (get counts eyeBlinks + 1) store)
    else if (earAvg >? 110)%float then
      (set_blinkDetected false s, store)
    else (s, store)
  | _, _, _ => (s, store)
  end.

End Host.

Definition pushUpBlock (counts : Counts) (rightShoulder : option NamedKeypoint)
    (currentTime : Z) (r : Cells) : Cells :=
  let '(s, store) := r in
  match rightShoulder with
  | Some rs =>
    let shoulderY := y_of rs in
    if (shoulderY >? 220)%float && UpDown_eqb (pushUpState s) up
       && (currentTime - pushUp (lastTimes s) >? 300) then
      (set_pushUpState down s, store)
    else if (shoulderY <? 120)%float && UpDown_eqb (pushUpState s) down then
      (set_lastTimes (set_pushUp currentTime (lastTimes s)) (set_pushUpState up s),
       updateCount pushUps (get counts pushUps + 1) store)
    else (s, store)
  | None => (s, store)
  end.

Definition highJumpBlock (counts : Counts) (leftAnkle rightAnkle : option NamedKeypoint)
    (currentTime : Z) (r : Cells) : Cells :=
  let '(s, store) := r in
  match leftAnkle, rightAnkle with
  | Some la, Some ra =>
    let ankleAvgY := ((y_of la + y_of ra) / 2)%float in
    if (ankleAvgY <? 120)%float && UpDown_eqb (highJumpState s) down
       && (currentTime - highJump (lastTimes s) >? 500) then
      (set_lastTimes (set_highJump currentTime (lastTimes s)) (set_highJumpState up s),
       updateCount highJumps (get counts highJumps + 1) store)
    else if (ankleAvgY >? 320)%float then
      (set_highJumpState down s, store)
    else (s, store)
  | _, _ => (s, store)
  end.

Definition squatBlock (counts : Counts) (leftKnee leftHip : option NamedKeypoint)
    (currentTime : Z) (r : Cells) : Cells :=
  let '(s, store) := r in
  match leftKnee, leftHip with
  | Some lk, Some lh =>
    if (y_of lk >? y_of lh + 40)%float && UpDown_eqb (squatState s) up
       && (currentTime - squat (lastTimes s) >? 500) then
      (set_squatState down s, store)
    else if (y_of lk <? y_of lh + 10)%float && UpDown_eqb (squatState s) down then
      (set_lastTimes (set_squat currentTime (lastTimes s)) (set_squatState up s),
       updateCount squats (get counts squats + 1) store)
    else (s, store)
  | _, _ => (s, store)
  end.

Definition jumpingJackBlock (counts : Counts)
    (leftWrist rightWrist leftAnkle rightAnkle : option NamedKeypoint)
    (currentTime : Z) (r : Cells) : Cells :=
  let '(s, store) := r in
  match leftWrist, rightWrist, leftAnkle, rightAnkle with
  | Some lw, Some rw, Some la, Some ra =>
    let armSpread := abs (x_of lw - x_of rw)%float in
    let legSpread := abs (x_of la - x_of ra)%float in
    if (armSpread >? 220)%float && (legSpread >? 120)%float
       && OpenClosed_eqb (jumpingJackState s) closed
       && (currentTime - jumpingJack (lastTimes s) >? 300) then
      (set_lastTimes (set_jumpingJack currentTime (lastTimes s)) (set_jumpingJackState open s),
       updateCount jumpingJacks (get counts jumpingJacks + 1) store)
    else if (armSpread <? 80)%float && (legSpread <? 40)%float then
      (set_jumpingJackState closed s, store)
    else (s, store)
  | _, _, _, _ => (s, store)
  end.

Definition lungeBlock (counts : Counts) (rightKnee rightHip : option NamedKeypoint)
    (currentTime : Z) (r : Cells) : Cells :=
  let '(s, store) := r in
  match rightKnee, rightHip with
  | Some rk, Some rh =>
    let kneeHipDistance := abs (y_of rk - y_of rh)%float in
    if (kneeHipDistance >? 80)%float && (x_of rk >? x_of rh + 10)%float
       && UpDown_eqb (lungeState s) up
       && (currentTime - lunge (lastTimes s) >? 500) then
      (set_lungeState down s, store)
    else if (kneeHipDistance <? 40)%float && UpDown_eqb (lungeState s) down then
      (set_lastTimes (set_lunge currentTime (lastTimes s)) (set_lungeState up s),
       updateCount lunges (get counts lunges + 1) store)
    else (s, store)
  | _, _ => (s, store)
  end.

(** One call of [detectPose]: the poses the model returned (each a list
    of keypoints) and the reading of [Date.now()]. *)
Record Shot := mkShot {
  poses : list (list NamedKeypoint);
  currentTime : Z
}.

Section Host2.

Variable hypot : float -> float -> float.

(** [detectPose] (WebCam.jsx, lines 93-279), once the video and the model
    are ready. *)
Definition detectPose (counts : Counts) (sh : Shot) (r : Cells) : Cells :=
  match poses sh with
  | [] => r
  | keypoints :: _ =>
    let t := currentTime sh in
    let leftWrist := getKeypoint keypoints "left_wrist" in
    let leftShoulder := getKeypoint keypoints "left_shoulder" in
    let r := handLiftBlock counts leftWrist leftShoulder r in
    let leftEye := getKeypoint keypoints "left_eye" in
    let rightEye := getKeypoint keypoints "right_eye" in
    let nose := getKeypoint keypoints "nose" in
    let r := blinkBlock hypot counts leftEye rightEye nose t r in
    let rightShoulder := getKeypoint keypoints "right_shoulder" in
    let r := pushUpBlock counts rightShoulder t r in
    let leftAnkle := getKeypoint keypoints "left_ankle" in
    let rightAnkle := getKeypoint keypoints "right_ankle" in
    let r := highJumpBlock counts leftAnkle rightAnkle t r in
    let leftKnee := getKeypoint keypoints "left_knee" in
    let leftHip := getKeypoint keypoints "left_hip" in
    let r := squatBlock counts leftKnee leftHip t r in
    let rightWrist := getKeypoint keypoints "right_wrist" in
    let r := jumpingJackBlock counts leftWrist rightWrist leftAnkle rightAnkle t r in
    let rightKnee := getKeypoint keypoints "right_knee" in
    let rightHip := getKeypoint keypoints "right_hip" in
    lungeBlock counts rightKnee rightHip t r
  end.

(** What a call can do to the store: leave an entry, or set it to the
    captured count plus one. *)
Definition Touched (counts store store' : Counts) : Prop :=
  forall k, get store' k = get store k \/ get store' k = get counts k + 1.

(** The calls of one interval, in order, all with the same closure. *)
Definition detectAll (counts : Counts) (shots : list Shot) (r : Cells) : Cells :=
  fold_left (fun r sh => detectPose counts sh r) shots r.

End Host2.

End Unbuffered.

(** * The step counter (Workouts.jsx, lines 20-55) *)

Module StepCounter.

(** The two pieces of React state. *)
Record State := mkState {
  steps : Z;
  lastAcc : float
}.

(** [event.accelerationIncludingGravity] *)
Record Acceleration := mkAcceleration {
  acc_x : float;
  acc_y : float;
  acc_z : float
}.

Definition threshold : float := 12.

Definition initial : State := mkState 0 0.

Definition totalAcc (acc : Acceleration) : float :=
  sqrt (acc_x acc * acc_x acc + acc_y acc * acc_y acc + acc_z acc * acc_z acc)%float.

(** [handleMotion], with [lastAcc] the value of the latest render (the
    effect re-subscribes the handler whenever [lastAcc] changes). *)
Definition handleMotion (st : State) (acc : Acceleration) : State :=
  mkState
    (if (abs (totalAcc acc - lastAcc st) >? threshold)%float
     then steps st + 1 else steps st)
    (totalAcc acc).

Definition motions (st : State) (accs : list Acceleration) : State :=
  fold_left handleMotion accs st.

End StepCounter.


(** * More concrete frames *)

(** Eyes close to the nose. *)
Definition eyesNear : Frame :=
  mkFrame (pose [(left_eye, kp 0.5 0.5); (right_eye, kp 0.55 0.5); (nose, kp 0.52 0.55)])
          640 480 1000 1000.

(** Left knee well below the left hip. *)
Definition kneeLow : Frame :=
  mkFrame (pose [(left_knee, kp 0.5 0.6); (left_hip, kp 0.5 0.4)]) 640 480 1000 1000.

(** Right knee forward of and well below the right hip. *)
Definition lungeDeep : Frame :=
  mkFrame (pose [(right_knee, kp 0.6 0.7); (right_hip, kp 0.5 0.4)]) 640 480 1000 1000.

(** No pose returned, and a pose with too few keypoints. *)
Definition noPose : Frame := mkFrame None 640 480 5000 5000.

Definition shortPose : Frame :=
  mkFrame (Some [Some (kp 0.5 0.5); Some (kp 0.5 0.5)]) 640 480 6000 6000.

(** A squat at a given time: the left knee well below the left hip, and
    level with it again. *)
Definition squatDown (t : Z) : Frame :=
  mkFrame (pose [(left_knee, kp 0.5 0.6); (left_hip, kp 0.5 0.4)]) 640 480 t t.

Definition squatUp (t : Z) : Frame :=
  mkFrame (pose [(left_knee, kp 0.5 0.4); (left_hip, kp 0.5 0.4)]) 640 480 t t.

(** * Proofs *)

(** ** Counts objects *)

Lemma get_set_same (c : Counts) (k : CountKey) (v : Z) : get (set c k v) k = v.
Proof. destruct k; reflexivity. Qed.

Lemma get_set_other (c : Counts) (k k' : CountKey) (v : Z) :
  k' <> k -> get (set c k v) k' = get c k'.
Proof. destruct k, k'; intros H; try reflexivity; contradiction H; reflexivity. Qed.

Lemma CountKey_eqb_eq (a b : CountKey) : CountKey_eqb a b = true <-> a = b.
Proof. destruct a, b; simpl; split; intros H; try reflexivity; discriminate H. Qed.

Lemma CountKey_eq_dec (a b : CountKey) : {a = b} + {a <> b}.
Proof. decide equality. Defined.

Lemma Counts_ext (c c' : Counts) : (forall k, get c k = get c' k) -> c = c'.
Proof.
  intros H. destruct c, c'.
  pose proof (H handLifts). pose proof (H eyeBlinks). pose proof (H pushUps).
  pose proof (H highJumps). pose proof (H squats). pose proof (H jumpingJacks).
  pose proof (H lunges). simpl in *. congruence.
Qed.

(** ** What one detector sees of the two cells *)

Ltac split_ifs :=
  repeat match goal with
  | |- context [if ?b then _ else _] => destruct b eqn:?
  end.

Ltac frame_block :=
  intros d [s c] Hd; cbv beta delta [handLiftBlock pushUpBlock highJumpBlock
    squatBlock jumpingJackBlock lungeBlock] iota zeta;
  repeat match goal with
  | |- context [match ?o with Some _ => _ | None => _ end] => destruct o
  end;
  split_ifs; destruct d; try reflexivity; contradiction Hd; reflexivity.

Lemma handLiftBlock_frame lw ls : forall d r, d <> handLifts ->
  view d (handLiftBlock lw ls r) = view d r.
Proof. frame_block. Qed.

Lemma pushUpBlock_frame rs H t : forall d r, d <> pushUps ->
  view d (pushUpBlock rs H t r) = view d r.
Proof. frame_block. Qed.

Lemma highJumpBlock_frame la ra H t : forall d r, d <> highJumps ->
  view d (highJumpBlock la ra H t r) = view d r.
Proof. frame_block. Qed.

Lemma squatBlock_frame lk lh t : forall d r, d <> squats ->
  view d (squatBlock lk lh t r) = view d r.
Proof. frame_block. Qed.

Lemma jumpingJackBlock_frame lw rw la ra W t : forall d r, d <> jumpingJacks ->
  view d (jumpingJackBlock lw rw la ra W t r) = view d r.
Proof. frame_block. Qed.

Lemma lungeBlock_frame rk rh t : forall d r, d <> lunges ->
  view d (lungeBlock rk rh t r) = view d r.
Proof. frame_block. Qed.

Section EngineProofs.

Variable hypot : float -> float -> float.

Lemma blinkBlock_frame le re no t : forall d r, d <> eyeBlinks ->
  view d (blinkBlock hypot le re no t r) = view d r.
Proof.
  intros d [s c] Hd; cbv beta delta [blinkBlock] iota zeta;
  repeat match goal with
  | |- context [match ?o with Some _ => _ | None => _ end] => destruct o
  end;
  split_ifs; destruct d; try reflexivity; contradiction Hd; reflexivity.
Qed.

(** ** Each block steps its own detector *)

Ltac bool_hyps :=
  repeat match goal with
  | H : _ && _ = true |- _ => apply andb_true_iff in H; destruct H
  | H : _ && _ = false |- _ => apply andb_false_iff in H
  | H : negb _ = true |- _ => apply negb_true_iff in H
  | H : negb _ = false |- _ => apply negb_false_iff in H
  | H : Z.gtb _ _ = true |- _ => apply Z.gtb_lt in H
  | H : UpDown_eqb ?x _ = true |- _ => destruct x eqn:?; try discriminate H; clear H
  | H : OpenClosed_eqb ?x _ = true |- _ => destruct x eqn:?; try discriminate H; clear H
  end.

Ltac pick_step :=
  unfold view, detStep, debounced; simpl;
  repeat match goal with
  | H : ?x = _ |- context [?x] => rewrite H
  end; simpl;
  first [ left; solve [repeat split; auto; lia]
        | right; left; solve [repeat split; auto; lia]
        | right; right; solve [repeat split; auto; lia] ].

Ltac own_block :=
  intros [s c]; cbv beta delta [handLiftBlock pushUpBlock highJumpBlock
    squatBlock jumpingJackBlock lungeBlock blinkBlock] iota zeta;
  repeat match goal with
  | |- context [match ?o with Some _ => _ | None => _ end] => destruct o
  end;
  split_ifs; bool_hyps; pick_step.

Lemma handLiftBlock_own lw ls t : forall r,
  detStep handLifts t (view handLifts r) (view handLifts (handLiftBlock lw ls r)).
Proof. own_block. Qed.

Lemma blinkBlock_own le re no t : forall r,
  detStep eyeBlinks t (view eyeBlinks r) (view eyeBlinks (blinkBlock hypot le re no t r)).
Proof. own_block. Qed.

Lemma pushUpBlock_own rs H t : forall r,
  detStep pushUps t (view pushUps r) (view pushUps (pushUpBlock rs H t r)).
Proof. own_block. Qed.

Lemma highJumpBlock_own la ra H t : forall r,
  detStep highJumps t (view highJumps r) (view highJumps (highJumpBlock la ra H t r)).
Proof. own_block. Qed.

Lemma squatBlock_own lk lh t : forall r,
  detStep squats t (view squats r) (view squats (squatBlock lk lh t r)).
Proof. own_block. Qed.

Lemma jumpingJackBlock_own lw rw la ra W t : forall r,
  detStep jumpingJacks t (view jumpingJacks r)
    (view jumpingJacks (jumpingJackBlock lw rw la ra W t r)).
Proof. own_block. Qed.

Lemma lungeBlock_own rk rh t : forall r,
  detStep lunges t (view lunges r) (view lunges (lungeBlock rk rh t r)).
Proof. own_block. Qed.

(** ** A whole frame, seen from one detector *)

Lemma detectors_detStep (d : CountKey) (f : Frame) (r : Refs) :
  detStep d (now f) (view d r) (view d (detectors hypot f r)).
Proof.
  unfold detectors.
  destruct d.
  - rewrite lungeBlock_frame, jumpingJackBlock_frame, squatBlock_frame,
      highJumpBlock_frame, pushUpBlock_frame, blinkBlock_frame by discriminate.
    apply handLiftBlock_own.
  - rewrite lungeBlock_frame, jumpingJackBlock_frame, squatBlock_frame,
      highJumpBlock_frame, pushUpBlock_frame by discriminate.
    rewrite <- (handLiftBlock_frame
      (getKeypointByName (keypoints f) left_wrist (videoWidth f) (videoHeight f))
      (getKeypointByName (keypoints f) left_shoulder (videoWidth f) (videoHeight f))
      eyeBlinks r) at 1 by discriminate.
    apply blinkBlock_own.
  - rewrite lungeBlock_frame, jumpingJackBlock_frame, squatBlock_frame,
      highJumpBlock_frame by discriminate.
    match goal with
    | |- detStep _ _ _ (view _ (pushUpBlock _ _ _ ?r')) =>
      replace (view pushUps r) with (view pushUps r')
        by (rewrite blinkBlock_frame, handLiftBlock_frame by discriminate; reflexivity)
    end.
    apply pushUpBlock_own.
  - rewrite lungeBlock_frame, jumpingJackBlock_frame, squatBlock_frame by discriminate.
    match goal with
    | |- detStep _ _ _ (view _ (highJumpBlock _ _ _ _ ?r')) =>
      replace (view highJumps r) with (view highJumps r')
        by (rewrite pushUpBlock_frame, blinkBlock_frame, handLiftBlock_frame
              by discriminate; reflexivity)
    end.
    apply highJumpBlock_own.
  - rewrite lungeBlock_frame, jumpingJackBlock_frame by discriminate.
    match goal with
    | |- detStep _ _ _ (view _ (squatBlock _ _ _ ?r')) =>
      replace (view squats r) with (view squats r')
        by (rewrite highJumpBlock_frame, pushUpBlock_frame, blinkBlock_frame,
              handLiftBlock_frame by discriminate; reflexivity)
    end.
    apply squatBlock_own.
  - rewrite lungeBlock_frame by discriminate.
    match goal with
    | |- detStep _ _ _ (view _ (jumpingJackBlock _ _ _ _ _ _ ?r')) =>
      replace (view jumpingJacks r) with (view jumpingJacks r')
        by (rewrite squatBlock_frame, highJumpBlock_frame, pushUpBlock_frame,
              blinkBlock_frame, handLiftBlock_frame by discriminate; reflexivity)
    end.
    apply jumpingJackBlock_own.
  - match goal with
    | |- detStep _ _ _ (view _ (lungeBlock _ _ _ ?r')) =>
      replace (view lunges r) with (view lunges r')
        by (rewrite jumpingJackBlock_frame, squatBlock_frame, highJumpBlock_frame,
              pushUpBlock_frame, blinkBlock_frame, handLiftBlock_frame
              by discriminate; reflexivity)
    end.
    apply lungeBlock_own.
Qed.

(** ** Flushing leaves the detector cells alone *)

Lemma flushKey_refs (w : World) (k : CountKey) :
  stateRef (flushKey w k) = stateRef w
  /\ localCountsRef (flushKey w k) = localCountsRef w
  /\ lastContextFlush (flushKey w k) = lastContextFlush w
  /\ counts (flushKey w k) = counts w.
Proof. unfold flushKey. split_ifs; simpl; auto. Qed.

Lemma fold_flushKey_refs (ks : list CountKey) : forall w,
  stateRef (fold_left flushKey ks w) = stateRef w
  /\ localCountsRef (fold_left flushKey ks w) = localCountsRef w
  /\ lastContextFlush (fold_left flushKey ks w) = lastContextFlush w
  /\ counts (fold_left flushKey ks w) = counts w.
Proof.
  induction ks as [|k ks IH]; intros w; simpl; [auto|].
  destruct (IH (flushKey w k)) as (H1 & H2 & H3 & H4).
  destruct (flushKey_refs w k) as (G1 & G2 & G3 & G4).
  rewrite H1, H2, H3, H4. auto.
Qed.

Lemma flush_refs (t : Z) (w : World) :
  stateRef (flushCountsToContext t w) = stateRef w
  /\ localCountsRef (flushCountsToContext t w) = localCountsRef w
  /\ counts (flushCountsToContext t w) = counts w.
Proof.
  unfold flushCountsToContext. destruct (t - lastContextFlush w <? 800); [auto|].
  match goal with |- context [fold_left flushKey keys ?w0] =>
    destruct (fold_flushKey_refs keys w0) as (H1 & H2 & _ & H4) end.
  rewrite H1, H2, H4. auto.
Qed.

Lemma detectAndProcess_refs (f : Frame) (w : World) :
  refs (detectAndProcess hypot f w) = refs w
  \/ refs (detectAndProcess hypot f w) = detectors hypot f (refs w).
Proof.
  unfold detectAndProcess, refs.
  destruct (keypoints f) as [kps|] eqn:Hk; [|left; reflexivity].
  destruct (length kps <? 17)%nat; [left; reflexivity|].
  right.
  destruct (detectors hypot f (stateRef w, localCountsRef w)) as [s c].
  match goal with |- context [flushCountsToContext ?t ?w0] =>
    destruct (flush_refs t w0) as (H1 & H2 & _) end.
  rewrite H1, H2. reflexivity.
Qed.

Lemma detStep_refl d t v : detStep d t v v.
Proof. destruct v as [[p lt] c]. left. auto. Qed.

(** Every event is a detector step (possibly the idle one) of every
    detector; a frame's step is taken at the frame's clock. *)
Lemma step_detStep (d : CountKey) (w : World) (ev : Event) :
  match ev with
  | Tick f => detStep d (now f) (view d (refs w)) (view d (refs (step hypot w ev)))
  | Render => view d (refs (step hypot w ev)) = view d (refs w)
  end.
Proof.
  destruct ev as [f|]; [|reflexivity]. unfold step.
  destruct (detectAndProcess_refs f w) as [H|H]; rewrite H.
  - apply detStep_refl.
  - apply detectors_detStep.
Qed.

(** ** Counting along a run *)

Lemma detStep_count d t p lt c p' lt' c' :
  detStep d t (p, lt, c) (p', lt', c') ->
  c' = c + (if counted d p p' then 1 else 0).
Proof.
  unfold detStep, counted.
  destruct (emitsOnReturn d); intros [H|[H|H]]; decompose [and] H; subst;
    try (destruct p; simpl; lia); try (destruct p'; simpl; lia); simpl; lia.
Qed.

Lemma step_count (d : CountKey) (w : World) (ev : Event) :
  get (localCountsRef (step hypot w ev)) d
  = get (localCountsRef w) d
    + (if counted d (active d (stateRef w)) (active d (stateRef (step hypot w ev)))
       then 1 else 0).
Proof.
  pose proof (step_detStep d w ev) as H. destruct ev as [f|].
  - unfold view, refs in H. simpl fst in H. simpl snd in H.
    apply detStep_count in H. exact H.
  - simpl. unfold counted. destruct (emitsOnReturn d), (active d (stateRef w)); simpl; lia.
Qed.

Lemma phases_cons d w ev evs :
  phases hypot d w (ev :: evs)
  = active d (stateRef w) :: phases hypot d (step hypot w ev) evs.
Proof. reflexivity. Qed.

Lemma phases_head d w evs :
  exists l, phases hypot d w evs = active d (stateRef w) :: l.
Proof. destruct evs; eexists; reflexivity. Qed.

Lemma run_count (d : CountKey) (evs : list Event) : forall w,
  get (localCountsRef (run hypot w evs)) d
  = get (localCountsRef w) d + countedTransitions d (phases hypot d w evs).
Proof.
  induction evs as [|ev evs IH]; intros w.
  - simpl. lia.
  - change (run hypot w (ev :: evs)) with (run hypot (step hypot w ev) evs).
    rewrite IH, phases_cons, (step_count d w ev).
    destruct (phases_head d (step hypot w ev) evs) as [l Hl]. rewrite Hl.
    simpl. lia.
Qed.

Lemma allRest_counted d l :
  allRest l = true -> countedTransitions d (false :: l) = 0.
Proof.
  induction l as [|a l IH]; [reflexivity|].
  simpl allRest. intros H. apply andb_true_iff in H. destruct H as [Ha Hl].
  apply negb_true_iff in Ha. subst a.
  change (countedTransitions d (false :: false :: l))
    with ((if counted d false false then 1 else 0) + countedTransitions d (false :: l)).
  rewrite (IH Hl). unfold counted. destruct (emitsOnReturn d); reflexivity.
Qed.

Lemma activeThenRest_counted d l :
  activeThenRest l = true ->
  countedTransitions d (true :: l) = if emitsOnReturn d then 1 else 0.
Proof.
  induction l as [|a l IH]; [discriminate|].
  destruct a; simpl activeThenRest; intros H.
  - change (countedTransitions d (true :: true :: l))
      with ((if counted d true true then 1 else 0) + countedTransitions d (true :: l)).
    rewrite (IH H). unfold counted. destruct (emitsOnReturn d); reflexivity.
  - change (countedTransitions d (true :: false :: l))
      with ((if counted d true false then 1 else 0) + countedTransitions d (false :: l)).
    rewrite (allRest_counted d l H). unfold counted.
    destruct (emitsOnReturn d); reflexivity.
Qed.

Lemma oneCycle_counted d l :
  oneCycle l = true -> countedTransitions d l = 1.
Proof.
  induction l as [|a l IH]; [discriminate|].
  destruct a; [discriminate|].
  destruct l as [|b l]; [discriminate|].
  destruct b.
  - change (oneCycle (false :: true :: l)) with (activeThenRest l). intros H.
    change (countedTransitions d (false :: true :: l))
      with ((if counted d false true then 1 else 0) + countedTransitions d (true :: l)).
    rewrite (activeThenRest_counted d l H). unfold counted.
    destruct (emitsOnReturn d); reflexivity.
  - change (oneCycle (false :: false :: l)) with (oneCycle (false :: l)). intros H.
    change (countedTransitions d (false :: false :: l))
      with ((if counted d false false then 1 else 0) + countedTransitions d (false :: l)).
    rewrite (IH H). unfold counted. destruct (emitsOnReturn d); reflexivity.
Qed.

Lemma quiet_counted d l : quiet l = true -> countedTransitions d l = 0.
Proof.
  destruct l as [|a l]; [reflexivity|]. simpl quiet.
  induction l as [|b l IH]; [reflexivity|].
  simpl forallb. intros H. apply andb_true_iff in H. destruct H as [Hb Hl].
  apply Bool.eqb_prop in Hb. subst b.
  change (countedTransitions d (a :: a :: l))
    with ((if counted d a a then 1 else 0) + countedTransitions d (a :: l)).
  rewrite (IH Hl). unfold counted. destruct (emitsOnReturn d), a; reflexivity.
Qed.

(** ** Debounce: the clock of emitted events *)

Lemma gapped_tail D a l : gapped D (a :: l) -> gapped D l.
Proof. destruct l as [|b l]; simpl; tauto. Qed.

Lemma nondecreasing_cons a l :
  nondecreasing (a :: l) -> nondecreasing l /\ forall x, In x l -> a <= x.
Proof.
  revert a. induction l as [|b l IH]; intros a H.
  - split; [exact I|]. intros x [].
  - destruct H as [Hab Hl]. split; [exact Hl|].
    destruct (IH b Hl) as [_ Hb].
    intros x [Hx|Hx]; [subst; exact Hab|]. specialize (Hb x Hx). lia.
Qed.

Lemma emitted_false_iff d w ev :
  emitted hypot d w ev = false
  <-> get (localCountsRef (step hypot w ev)) d = get (localCountsRef w) d.
Proof.
  unfold emitted. rewrite negb_false_iff. apply Z.eqb_eq.
Qed.

Lemma emitted_Render d w : emitted hypot d w Render = false.
Proof. apply emitted_false_iff. reflexivity. Qed.

(** What a step of a debounced detector tells about its clock. *)
Lemma step_cases (d : CountKey) (D : Z) (w : World) (f : Frame) :
  debounce d = Some D ->
  let w' := step hypot w (Tick f) in
  (emitted hypot d w (Tick f) = false
   /\ lastTime d (stateRef w') = lastTime d (stateRef w)
   /\ (active d (stateRef w') = active d (stateRef w)
       \/ (emitsOnReturn d = false /\ active d (stateRef w') = false)
       \/ (emitsOnReturn d = true /\ active d (stateRef w) = false
           /\ active d (stateRef w') = true
           /\ now f - lastTime d (stateRef w) > D)))
  \/ (emitted hypot d w (Tick f) = true
      /\ lastTime d (stateRef w') = now f
      /\ (if emitsOnReturn d
          then active d (stateRef w) = true /\ active d (stateRef w') = false
          else now f - lastTime d (stateRef w) > D)).
Proof.
  intros HD w'. pose proof (step_detStep d w (Tick f)) as H.
  fold w' in H. unfold view, refs, detStep, debounced in H.
  simpl fst in H. simpl snd in H. rewrite HD in H.
  assert (Hnot : forall c, (c + 1 =? c) = false) by (intros; apply Z.eqb_neq; lia).
  unfold emitted. fold w'.
  destruct (emitsOnReturn d); destruct H as [H|[H|H]]; decompose [and] H; clear H.
  - left. rewrite H3, Z.eqb_refl. auto.
  - left. rewrite H3, Z.eqb_refl. split; [reflexivity|].
    split; [assumption|]. right. right. auto.
  - right. rewrite H4, Hnot. auto.
  - left. rewrite H3, Z.eqb_refl. auto.
  - right. rewrite H1, Hnot. auto.
  - left. rewrite H3, Z.eqb_refl. split; [reflexivity|].
    split; [assumption|]. right. left. auto.
Qed.

Lemma entry_chain (d : CountKey) (D : Z) :
  debounce d = Some D -> emitsOnReturn d = false ->
  forall evs w, gapped D (lastTime d (stateRef w) :: eventTimes hypot d w evs).
Proof.
  intros HD He. induction evs as [|ev evs IH]; intros w; [exact I|].
  simpl eventTimes. specialize (IH (step hypot w ev)).
  destruct ev as [f|].
  - destruct (step_cases d D w f HD) as [(Hem & Hlt & _)|(Hem & Hlt & Hrest)];
      rewrite Hem; simpl app.
    + rewrite <- Hlt. exact IH.
    + rewrite He in Hrest. rewrite Hlt in IH. simpl. split; [exact Hrest|exact IH].
  - rewrite emitted_Render. exact IH.
Qed.

Lemma return_chain (d : CountKey) (D : Z) :
  debounce d = Some D -> emitsOnReturn d = true ->
  forall evs w,
    nondecreasing (clocks evs) ->
    (active d (stateRef w) = false
     \/ forall x, In x (clocks evs) -> x - lastTime d (stateRef w) > D) ->
    gapped D (lastTime d (stateRef w) :: eventTimes hypot d w evs).
Proof.
  intros HD He. induction evs as [|ev evs IH]; intros w Hmono Hpre; [exact I|].
  simpl eventTimes. specialize (IH (step hypot w ev)).
  destruct ev as [f|].
  - change (clocks (Tick f :: evs)) with (now f :: clocks evs) in *.
    destruct (nondecreasing_cons _ _ Hmono) as [Hmono' Hle].
    destruct (step_cases d D w f HD) as [(Hem & Hlt & Hph)|(Hem & Hlt & Hrest)];
      rewrite Hem; simpl app.
    + rewrite <- Hlt. apply IH; [exact Hmono'|].
      rewrite Hlt.
      destruct Hph as [Hsame|[[Hc _]|(_ & _ & _ & Hdeb)]].
      * rewrite Hsame. destruct Hpre as [Hp|Hp]; [left; exact Hp|].
        right. intros x Hx. apply Hp. right. exact Hx.
      * rewrite He in Hc. discriminate Hc.
      * right. intros x Hx. specialize (Hle x Hx). lia.
    + rewrite He in Hrest. destruct Hrest as [Hp Hp'].
      destruct Hpre as [Hq|Hq]; [rewrite Hp in Hq; discriminate Hq|].
      assert (Hgap : now f - lastTime d (stateRef w) > D) by (apply Hq; left; reflexivity).
      rewrite Hlt in IH. simpl. split; [exact Hgap|].
      apply IH; [exact Hmono'|left; exact Hp'].
  - rewrite emitted_Render. apply IH; assumption.
Qed.

Lemma events_gapped (d : CountKey) (D : Z) :
  debounce d = Some D ->
  forall evs w,
    (emitsOnReturn d = true -> nondecreasing (clocks evs)) ->
    gapped D (eventTimes hypot d w evs).
Proof.
  intros HD evs w Hmono.
  destruct (emitsOnReturn d) eqn:He.
  - specialize (Hmono eq_refl). revert w Hmono.
    induction evs as [|ev evs IH]; intros w Hmono; [exact I|].
    simpl eventTimes. destruct ev as [f|].
    + change (clocks (Tick f :: evs)) with (now f :: clocks evs) in Hmono.
      destruct (nondecreasing_cons _ _ Hmono) as [Hmono' _].
      destruct (step_cases d D w f HD) as [(Hem & _)|(Hem & Hlt & Hrest)];
        rewrite Hem; simpl app.
      * apply IH. exact Hmono'.
      * rewrite He in Hrest. rewrite <- Hlt.
        apply (return_chain d D HD He); [exact Hmono'|left; apply Hrest].
    + rewrite emitted_Render. apply IH. exact Hmono.
  - apply (gapped_tail D (lastTime d (stateRef w))). apply entry_chain; assumption.
Qed.

Lemma eventTimes_incl d evs : forall w x,
  In x (eventTimes hypot d w evs) -> In x (clocks evs).
Proof.
  induction evs as [|ev evs IH]; intros w x; [intros []|].
  simpl eventTimes. unfold clocks. simpl flat_map. intros H.
  apply in_app_or in H. apply in_or_app. destruct H as [H|H].
  - left. destruct (emitted hypot d w ev); [exact H|destruct H].
  - right. exact (IH _ _ H).
Qed.

Lemma run_count_events d evs : forall w,
  get (localCountsRef (run hypot w evs)) d
  = get (localCountsRef w) d + Z.of_nat (length (eventTimes hypot d w evs)).
Proof.
  induction evs as [|ev evs IH]; intros w; [simpl; lia|].
  change (run hypot w (ev :: evs)) with (run hypot (step hypot w ev) evs).
  rewrite IH. simpl eventTimes. rewrite length_app, Nat2Z.inj_add.
  pose proof (step_count d w ev) as Hc.
  destruct (emitted hypot d w ev) eqn:Hem.
  - destruct ev as [f|]; [|rewrite emitted_Render in Hem; discriminate Hem].
    unfold emitted in Hem. apply negb_true_iff, Z.eqb_neq in Hem.
    change (length (eventClock (Tick f))) with 1%nat.
    destruct (counted d _ _); [lia|]. exfalso. apply Hem. lia.
  - apply emitted_false_iff in Hem. change (length (@nil Z)) with 0%nat. lia.
Qed.

Lemma gapped_window D t l :
  gapped D l -> (forall x, In x l -> t <= x <= t + D) -> (length l <= 1)%nat.
Proof.
  destruct l as [|a [|b l]]; simpl; intros H Hw; try lia.
  destruct H as [H _].
  pose proof (Hw a (or_introl eq_refl)).
  pose proof (Hw b (or_intror (or_introl eq_refl))). lia.
Qed.

(** ** The flush *)

Lemma flushKey_store (w : World) (k0 k : CountKey) :
  get (providerCounts (flushKey w k0)) k
  = if CountKey_eqb k k0 && negb (get (localCountsRef w) k =? get (counts w) k)
    then get (localCountsRef w) k
    else get (providerCounts w) k.
Proof.
  unfold flushKey, updateCount.
  destruct (CountKey_eq_dec k k0) as [->|Hne].
  - replace (CountKey_eqb k0 k0) with true by (symmetry; apply CountKey_eqb_eq; reflexivity).
    simpl andb. destruct (negb _); simpl; [apply get_set_same|reflexivity].
  - replace (CountKey_eqb k k0) with false
      by (symmetry; apply not_true_is_false; rewrite CountKey_eqb_eq; exact Hne).
    simpl andb. cbv iota. destruct (negb _); simpl; [apply get_set_other; exact Hne|reflexivity].
Qed.

Lemma fold_flushKey_store (ks : list CountKey) (k : CountKey) : forall w,
  get (providerCounts (fold_left flushKey ks w)) k
  = if existsb (CountKey_eqb k) ks && negb (get (localCountsRef w) k =? get (counts w) k)
    then get (localCountsRef w) k
    else get (providerCounts w) k.
Proof.
  induction ks as [|k0 ks IH]; intros w; [reflexivity|].
  simpl fold_left. rewrite IH.
  destruct (flushKey_refs w k0) as (_ & Hl & _ & Hc). rewrite Hl, Hc.
  rewrite flushKey_store. simpl existsb.
  destruct (CountKey_eqb k k0), (existsb (CountKey_eqb k) ks),
    (negb (get (localCountsRef w) k =? get (counts w) k)); reflexivity.
Qed.

Lemma keys_complete (k : CountKey) : existsb (CountKey_eqb k) keys = true.
Proof. destruct k; reflexivity. Qed.

(** A flush that gets past the interval test copies every buffer entry
    that differs from the captured [counts]. *)
Lemma flush_store (t : Z) (w : World) (k : CountKey) :
  get (providerCounts (flushCountsToContext t w)) k
  = if (t - lastContextFlush w <? 800) then get (providerCounts w) k
    else if negb (get (localCountsRef w) k =? get (counts w) k)
         then get (localCountsRef w) k
         else get (providerCounts w) k.
Proof.
  unfold flushCountsToContext. destruct (t - lastContextFlush w <? 800); [reflexivity|].
  rewrite fold_flushKey_store, keys_complete. reflexivity.
Qed.

Lemma flush_last (t : Z) (w : World) :
  lastContextFlush (flushCountsToContext t w)
  = if (t - lastContextFlush w <? 800) then lastContextFlush w else t.
Proof.
  unfold flushCountsToContext. destruct (t - lastContextFlush w <? 800); [reflexivity|].
  match goal with |- context [fold_left flushKey keys ?w0] =>
    destruct (fold_flushKey_refs keys w0) as (_ & _ & H3 & _) end.
  rewrite H3. reflexivity.
Qed.


Lemma Inv_flush t w : Inv w -> Inv (flushCountsToContext t w).
Proof.
  intros H k. destruct (flush_refs t w) as (_ & Hl & Hc).
  rewrite Hl, Hc, flush_store. destruct (H k) as [H1 H2].
  destruct (t - lastContextFlush w <? 800); [lia|].
  destruct (negb _); lia.
Qed.

Lemma step_local_mono (w : World) (ev : Event) (k : CountKey) :
  get (localCountsRef w) k <= get (localCountsRef (step hypot w ev)) k.
Proof.
  rewrite (step_count k w ev). destruct (counted k _ _); lia.
Qed.

Lemma step_store (w : World) (ev : Event) (k : CountKey) :
  get (providerCounts (step hypot w ev)) k = get (providerCounts w) k
  \/ get (providerCounts (step hypot w ev)) k = get (localCountsRef (step hypot w ev)) k.
Proof.
  destruct ev as [f|]; [|left; reflexivity].
  unfold step, detectAndProcess.
  destruct (keypoints f) as [kps|]; [|left; reflexivity].
  destruct (length kps <? 17)%nat; [left; reflexivity|].
  destruct (detectors hypot f (stateRef w, localCountsRef w)) as [s c].
  match goal with |- context [flushCountsToContext ?t ?w0] =>
    destruct (flush_refs t w0) as (_ & Hl & _); rewrite Hl, (flush_store t w0) end.
  simpl. destruct (_ <? 800); [left; reflexivity|].
  destruct (negb _); [right|left]; reflexivity.
Qed.

Lemma step_counts (w : World) (ev : Event) (k : CountKey) :
  get (counts (step hypot w ev)) k = get (counts w) k
  \/ get (counts (step hypot w ev)) k = get (providerCounts w) k.
Proof.
  destruct ev as [f|]; [|right; reflexivity]. left.
  unfold step, detectAndProcess.
  destruct (keypoints f) as [kps|]; [|reflexivity].
  destruct (length kps <? 17)%nat; [reflexivity|].
  destruct (detectors hypot f (stateRef w, localCountsRef w)) as [s c].
  match goal with |- context [flushCountsToContext ?t ?w0] =>
    destruct (flush_refs t w0) as (_ & _ & Hc); rewrite Hc end.
  reflexivity.
Qed.

Lemma step_store_mono (w : World) (ev : Event) (k : CountKey) :
  Inv w -> get (providerCounts w) k <= get (providerCounts (step hypot w ev)) k.
Proof.
  intros H. destruct (step_store w ev k) as [E|E]; rewrite E; [lia|].
  pose proof (step_local_mono w ev k). destruct (H k). lia.
Qed.

Lemma Inv_step (w : World) (ev : Event) : Inv w -> Inv (step hypot w ev).
Proof.
  intros H k. pose proof (step_store_mono w ev k H) as Hm.
  pose proof (step_local_mono w ev k) as Hl. destruct (H k) as [H1 H2].
  split.
  - destruct (step_counts w ev k) as [E|E]; rewrite E; lia.
  - destruct (step_store w ev k) as [E|E]; rewrite E; lia.
Qed.


Lemma Inv_trace (evs : list Event) : forall w w',
  Inv w -> In w' (trace hypot w evs) -> Inv w'.
Proof.
  induction evs as [|ev evs IH]; intros w w' H Hin.
  - destruct Hin as [<-|[]]. exact H.
  - destruct Hin as [<-|Hin]; [exact H|].
    apply (IH (step hypot w ev)); [apply Inv_step; exact H|exact Hin].
Qed.

Lemma step_flush (w : World) (ev : Event) :
  (flushed hypot w ev = false /\ lastContextFlush (step hypot w ev) = lastContextFlush w)
  \/ (flushed hypot w ev = true
      /\ lastContextFlush (step hypot w ev) - lastContextFlush w >= 800).
Proof.
  unfold flushed.
  assert (Hsame : forall a, negb (a =? a) = false)
    by (intros; rewrite Z.eqb_refl; reflexivity).
  destruct ev as [f|]; [|left; simpl; auto].
  unfold step, detectAndProcess.
  destruct (keypoints f) as [kps|]; [|left; auto].
  destruct (length kps <? 17)%nat; [left; auto|].
  destruct (detectors hypot f (stateRef w, localCountsRef w)) as [s c].
  rewrite flush_last. simpl lastContextFlush.
  destruct (Z.ltb_spec (flushNow f - lastContextFlush w) 800) as [Hlt|Hge].
  - left. auto.
  - right. split; [|lia]. apply negb_true_iff, Z.eqb_neq. lia.
Qed.

Lemma step_unflushed (w : World) (ev : Event) :
  flushed hypot w ev = false ->
  providerCounts (step hypot w ev) = providerCounts w.
Proof.
  unfold flushed. destruct ev as [f|]; [|reflexivity].
  unfold step, detectAndProcess.
  destruct (keypoints f) as [kps|]; [|reflexivity].
  destruct (length kps <? 17)%nat; [reflexivity|].
  destruct (detectors hypot f (stateRef w, localCountsRef w)) as [s c].
  rewrite flush_last. unfold flushCountsToContext. simpl lastContextFlush.
  destruct (Z.ltb_spec (flushNow f - lastContextFlush w) 800) as [Hlt|Hge];
    [reflexivity|].
  intros H. apply negb_false_iff, Z.eqb_eq in H. lia.
Qed.

(** The store's value is the buffer's at this or an earlier state of the
    run, given that it was so, or a value of [past], at the start. *)
Lemma store_from_buffer (k : CountKey) (evs : list Event) : forall w0 past,
  In (get (providerCounts w0) k) (get (localCountsRef w0) k :: past) ->
  forall i w, nth_error (trace hypot w0 evs) i = Some w ->
    In (get (providerCounts w) k) past
    \/ exists j w', (j <= i)%nat /\ nth_error (trace hypot w0 evs) j = Some w'
                    /\ get (providerCounts w) k = get (localCountsRef w') k.
Proof.
  assert (Hhere : forall w0 past l,
    In (get (providerCounts w0) k) (get (localCountsRef w0) k :: past) ->
    In (get (providerCounts w0) k) past
    \/ exists j w', (j <= 0)%nat /\ nth_error (w0 :: l) j = Some w'
                    /\ get (providerCounts w0) k = get (localCountsRef w') k).
  { intros w0 past l [H|H]; [right|left; exact H].
    exists 0%nat, w0. auto. }
  induction evs as [|ev evs IH]; intros w0 past H0 i w Hi.
  - destruct i as [|i]; [|destruct i; discriminate Hi].
    injection Hi as <-. apply Hhere. exact H0.
  - destruct i as [|i].
    + injection Hi as <-. apply Hhere. exact H0.
    + simpl in Hi.
      assert (H1 : In (get (providerCounts (step hypot w0 ev)) k)
                      (get (localCountsRef (step hypot w0 ev)) k
                       :: get (localCountsRef w0) k :: past)).
      { destruct (step_store w0 ev k) as [E|E]; rewrite E.
        - right. destruct H0 as [H0|H0]; [left; exact H0|right; exact H0].
        - left. reflexivity. }
      destruct (IH _ _ H1 i w Hi) as [[Hp|Hp]|(j & w' & Hj & Hn & He)].
      * right. exists 0%nat, w0. split; [lia|]. split; [reflexivity|]. symmetry. exact Hp.
      * left. exact Hp.
      * right. exists (S j), w'. split; [lia|]. split; [exact Hn|exact He].
Qed.

(** ** The push-up block in terms of its view *)

Lemma pushUpBlock_view rs H t r :
  view pushUps (pushUpBlock (Some rs) H t r) = pushUpView rs H t (view pushUps r).
Proof.
  destruct r as [s c]. unfold pushUpBlock, pushUpView. cbv zeta.
  change (view pushUps (s, c))
    with (UpDown_eqb (pushUpState s) down, pushUp (lastTimes s), get c pushUps).
  destruct (pushUpState s) eqn:E; simpl UpDown_eqb; simpl negb;
    rewrite ?andb_true_r, ?andb_false_r; simpl andb;
    split_ifs; unfold view; simpl; rewrite ?E; reflexivity.
Qed.

Lemma detectors_pushUp_view f r rs :
  getKeypointByName (keypoints f) right_shoulder (videoWidth f) (videoHeight f) = Some rs ->
  view pushUps (detectors hypot f r)
  = pushUpView rs (videoHeight f) (now f) (view pushUps r).
Proof.
  intros Hrs. unfold detectors.
  rewrite lungeBlock_frame, jumpingJackBlock_frame, squatBlock_frame,
    highJumpBlock_frame by discriminate.
  rewrite Hrs, pushUpBlock_view.
  rewrite blinkBlock_frame, handLiftBlock_frame by discriminate. reflexivity.
Qed.

Lemma active_pushUps_down s : active pushUps s = true <-> pushUpState s = down.
Proof. unfold active. destruct (pushUpState s); simpl; split; congruence. Qed.

Lemma active_pushUps_up s : active pushUps s = false <-> pushUpState s = up.
Proof. unfold active. destruct (pushUpState s); simpl; split; congruence. Qed.

(** ** Frames without a valid keypoint *)

Lemma detectors_noValid f r : noValidKeypoint f -> detectors hypot f r = r.
Proof.
  intros H. unfold detectors. rewrite !H. destruct r as [s c]. reflexivity.
Qed.

Lemma flush_store_synced t w :
  (forall k, get (providerCounts w) k = get (localCountsRef w) k) ->
  providerCounts (flushCountsToContext t w) = providerCounts w.
Proof.
  intros H. apply Counts_ext. intros k. rewrite flush_store.
  destruct (_ <? 800); [reflexivity|]. destruct (negb _); [symmetry; apply H|reflexivity].
Qed.

Lemma step_noValid w ev :
  noValidKeypointEv ev ->
  stateRef (step hypot w ev) = stateRef w
  /\ localCountsRef (step hypot w ev) = localCountsRef w
  /\ ((forall k, get (providerCounts w) k = get (localCountsRef w) k) ->
      providerCounts (step hypot w ev) = providerCounts w).
Proof.
  destruct ev as [f|]; [|simpl; auto]. intros H.
  unfold step, detectAndProcess.
  destruct (keypoints f) as [kps|] eqn:Hk; [|auto].
  destruct (length kps <? 17)%nat; [auto|].
  rewrite (detectors_noValid f _ H).
  match goal with |- context [flushCountsToContext ?t ?w0] =>
    destruct (flush_refs t w0) as (Hs & Hl & _); rewrite Hs, Hl;
    pose proof (flush_store_synced t w0) as Hp end.
  simpl in *. auto.
Qed.

(** ** The claims *)

(** C2.  For a detector with debounce interval [D], the clock readings of
    any two consecutive repetition events it emits are more than [D] apart
    (for the three detectors that count on the way back to rest the frames'
    clock readings are taken in real-time order), so frames whose clock
    readings all lie in one window of length [D] raise its count by at
    most 1. *)
Theorem debounce_separates_events (d : CountKey) (D : Z) (w : World) (evs : list Event) :
  debounce d = Some D ->
  (emitsOnReturn d = true -> nondecreasing (clocks evs)) ->
  gapped D (eventTimes hypot d w evs)
  /\ forall t, (forall x, In x (clocks evs) -> t <= x <= t + D) ->
       get (localCountsRef (run hypot w evs)) d <= get (localCountsRef w) d + 1.
Proof.
  intros HD Hmono.
  pose proof (events_gapped d D HD evs w Hmono) as Hgap.
  split; [exact Hgap|].
  intros t Hwin. rewrite run_count_events.
  assert (length (eventTimes hypot d w evs) <= 1)%nat; [|lia].
  apply (gapped_window D t); [exact Hgap|].
  intros x Hx. apply Hwin. exact (eventTimes_incl d evs w x Hx).
Qed.

(** C3.  In every run, from every state, each flush comes at least 800 ms
    after the previous one, and the first at least 800 ms after the value
    [lastContextFlush] started with (the clock reading at mounting); and
    the store changes in no step other than a flush. *)
Theorem flushes_spaced :
  (forall evs w, gappedGe 800 (lastContextFlush w :: flushTimes hypot w evs))
  /\ (forall w ev, flushed hypot w ev = false ->
        providerCounts (step hypot w ev) = providerCounts w).
Proof.
  split.
  - induction evs as [|ev evs IH]; intros w; [exact I|].
    simpl flushTimes. specialize (IH (step hypot w ev)).
    destruct (step_flush w ev) as [[Hf Hl]|[Hf Hl]]; rewrite Hf; simpl app.
    + rewrite <- Hl. exact IH.
    + simpl. split; [exact Hl|exact IH].
  - apply step_unflushed.
Qed.


Lemma step_keeps_le (w : World) (ev : Event) :
  (forall k, get (providerCounts w) k <= get (localCountsRef w) k) ->
  forall k, get (providerCounts (step hypot w ev)) k
            <= get (localCountsRef (step hypot w ev)) k.
Proof.
  intros H k. pose proof (step_local_mono w ev k). specialize (H k).
  destruct (step_store w ev k) as [E|E]; rewrite E; lia.
Qed.

Lemma step_flushed_synced (w : World) (ev : Event) :
  (forall k, get (counts w) k = get (providerCounts w) k) ->
  flushed hypot w ev = true ->
  forall k, get (providerCounts (step hypot w ev)) k
            = get (localCountsRef (step hypot w ev)) k.
Proof.
  intros Hs Hf k. revert Hf. unfold flushed.
  destruct ev as [f|]; [|simpl; rewrite Z.eqb_refl; discriminate].
  unfold step, detectAndProcess.
  destruct (keypoints f) as [kps|]; [|rewrite Z.eqb_refl; discriminate].
  destruct (length kps <? 17)%nat; [rewrite Z.eqb_refl; discriminate|].
  destruct (detectors hypot f (stateRef w, localCountsRef w)) as [s c].
  rewrite flush_last.
  match goal with |- context [flushCountsToContext ?t ?w0] =>
    destruct (flush_refs t w0) as (_ & Hl & _); rewrite Hl, (flush_store t w0) end.
  simpl. destruct (flushNow f - lastContextFlush w <? 800);
    [rewrite Z.eqb_refl; discriminate|].
  intros _. destruct (Z.eqb_spec (get c k) (get (counts w) k)) as [E|E]; simpl;
    [|reflexivity].
  rewrite E. symmetry. apply Hs.
Qed.

Lemma step_unflushed_synced (w : World) (ev : Event) :
  (forall k, get (counts w) k = get (providerCounts w) k) ->
  flushed hypot w ev = false ->
  forall k, get (counts (step hypot w ev)) k = get (providerCounts (step hypot w ev)) k.
Proof.
  intros Hs Hf k. rewrite (step_unflushed w ev Hf).
  destruct (step_counts w ev k) as [E|E]; rewrite E; [apply Hs|reflexivity].
Qed.

Lemma SInv_start (t0 : Z) : SInv (start t0).
Proof. split; [intros _ k; destruct k; simpl; lia|discriminate]. Qed.

Lemma SInv_step (s : Session) (a : Action) : SInv s -> SInv (sessionStep hypot s a).
Proof.
  destruct s as [w b]. intros [Ht Hf]. simpl in Ht, Hf.
  destruct a as [ev|t0]; unfold sessionStep, SInv; simpl fst; simpl snd.
  - destruct b; simpl orb.
    + split; [intros _; apply step_keeps_le; apply Ht; reflexivity|discriminate].
    + destruct (flushed hypot w ev) eqn:E; split; try discriminate; intros _ k.
      * rewrite (step_flushed_synced w ev (Hf eq_refl) E k). lia.
      * apply (step_unflushed_synced w ev (Hf eq_refl) E).
  - split; [discriminate|]. intros _ k. reflexivity.
Qed.

Lemma SInv_trace (acts : list Action) : forall s s',
  SInv s -> In s' (sessionTrace hypot s acts) -> SInv s'.
Proof.
  induction acts as [|a acts IH]; intros s s' H Hin.
  - destruct Hin as [<-|[]]. exact H.
  - destruct Hin as [<-|Hin]; [exact H|].
    apply (IH (sessionStep hypot s a)); [apply SInv_step; exact H|exact Hin].
Qed.

Lemma act_store (w : World) (a : Action) (k : CountKey) :
  get (providerCounts (act hypot w a)) k = get (providerCounts w) k
  \/ get (providerCounts (act hypot w a)) k = get (localCountsRef (act hypot w a)) k.
Proof. destruct a as [ev|t0]; [apply step_store|left; reflexivity]. Qed.

(** As [store_from_buffer], over remounts too. *)
Lemma session_store_from_buffer (k : CountKey) (acts : list Action) : forall s0 past,
  In (get (providerCounts (fst s0)) k) (get (localCountsRef (fst s0)) k :: past) ->
  forall i s, nth_error (sessionTrace hypot s0 acts) i = Some s ->
    In (get (providerCounts (fst s)) k) past
    \/ exists j s', (j <= i)%nat /\ nth_error (sessionTrace hypot s0 acts) j = Some s'
                    /\ get (providerCounts (fst s)) k = get (localCountsRef (fst s')) k.
Proof.
  assert (Hhere : forall (s0 : Session) past l,
    In (get (providerCounts (fst s0)) k) (get (localCountsRef (fst s0)) k :: past) ->
    In (get (providerCounts (fst s0)) k) past
    \/ exists j s', (j <= 0)%nat /\ nth_error (s0 :: l) j = Some s'
                    /\ get (providerCounts (fst s0)) k = get (localCountsRef (fst s')) k).
  { intros s0 past l [H|H]; [right|left; exact H].
    exists 0%nat, s0. auto. }
  induction acts as [|a acts IH]; intros s0 past H0 i s Hi.
  - destruct i as [|i]; [|destruct i; discriminate Hi].
    injection Hi as <-. apply Hhere. exact H0.
  - destruct i as [|i].
    + injection Hi as <-. apply Hhere. exact H0.
    + simpl in Hi.
      assert (H1 : In (get (providerCounts (fst (sessionStep hypot s0 a))) k)
                      (get (localCountsRef (fst (sessionStep hypot s0 a))) k
                       :: get (localCountsRef (fst s0)) k :: past)).
      { unfold sessionStep. simpl fst.
        destruct (act_store (fst s0) a k) as [E|E]; rewrite E.
        - right. destruct H0 as [H0|H0]; [left; exact H0|right; exact H0].
        - left. reflexivity. }
      destruct (IH _ _ H1 i s Hi) as [[Hp|Hp]|(j & s' & Hj & Hn & He)].
      * right. exists 0%nat, s0. split; [lia|]. split; [reflexivity|]. symmetry. exact Hp.
      * left. exact Hp.
      * right. exists (S j), s'. split; [lia|]. split; [exact Hn|exact He].
Qed.

(** C5 (as amended).  At every state the program reaches from its first
    mount by frames, re-renders and remounts, for every exercise, the
    store's value is the value the buffer holds at that state or held at
    an earlier state (the buffer of an earlier mount included); and it is
    not above the buffer's current value, except between a remount and
    the first flush after it. *)
Theorem published_value_was_buffered (t0 : Z) (acts : list Action) (i : nat)
    (s : Session) (k : CountKey) :
  nth_error (sessionTrace hypot (start t0) acts) i = Some s ->
  (exists j s', (j <= i)%nat
     /\ nth_error (sessionTrace hypot (start t0) acts) j = Some s'
     /\ get (providerCounts (fst s)) k = get (localCountsRef (fst s')) k)
  /\ (snd s = true ->
      get (providerCounts (fst s)) k <= get (localCountsRef (fst s)) k).
Proof.
  intros Hi. split.
  - destruct (session_store_from_buffer k acts (start t0) [] (or_introl eq_refl) i s Hi)
      as [[]|H]. exact H.
  - intros Hs.
    destruct (SInv_trace acts (start t0) s (SInv_start t0) (nth_error_In _ _ Hi)) as [H _].
    apply H. exact Hs.
Qed.

(** C6 (as amended).  Over any run in whose frames the filter returns
    "absent" for every keypoint (missing, score missing or below 0.2, or a
    coordinate that is NaN after the rescale), no detector changes state,
    no buffer count changes, and a store that agreed with the buffer (as
    at mounting, all zero) does not change either. *)
Theorem no_valid_keypoint_no_change (evs : list Event) : forall w : World,
  Forall noValidKeypointEv evs ->
  stateRef (run hypot w evs) = stateRef w
  /\ localCountsRef (run hypot w evs) = localCountsRef w
  /\ ((forall k, get (providerCounts w) k = get (localCountsRef w) k) ->
      providerCounts (run hypot w evs) = providerCounts w).
Proof.
  induction evs as [|ev evs IH]; intros w H; [auto|].
  inversion H as [|? ? Hev Hevs]; subst.
  change (run hypot w (ev :: evs)) with (run hypot (step hypot w ev) evs).
  destruct (IH (step hypot w ev) Hevs) as (Hs & Hl & Hp).
  destruct (step_noValid w ev Hev) as (Gs & Gl & Gp).
  rewrite Hs, Hl, Gs, Gl. split; [reflexivity|]. split; [reflexivity|].
  intros Hsync. rewrite Hp; [exact (Gp Hsync)|].
  intros k. rewrite (Gp Hsync), Gl. apply Hsync.
Qed.

(** C8.  With a valid right shoulder in the frame: from "up", the
    push-up detector goes "down" without counting when shoulderY is above
    0.45 of the frame height and more than 400 ms have passed since its
    last counted repetition; from "up" it does nothing when no more than
    400 ms have passed; from "down", it counts one repetition, goes "up"
    and restarts its clock when shoulderY is below 0.25 of the frame
    height. *)
Theorem pushUp_transitions (f : Frame) (s : StateRef) (c : Counts) (rs : Keypoint) :
  getKeypointByName (keypoints f) right_shoulder (videoWidth f) (videoHeight f) = Some rs ->
  let s' := fst (detectors hypot f (s, c)) in
  let c' := snd (detectors hypot f (s, c)) in
  (pushUpState s = up ->
   (kp_y rs >? videoHeight f * 0.45)%float = true ->
   now f - pushUp (lastTimes s) > 400 ->
     pushUpState s' = down /\ get c' pushUps = get c pushUps
     /\ pushUp (lastTimes s') = pushUp (lastTimes s))
  /\ (pushUpState s = up ->
      now f - pushUp (lastTimes s) <= 400 ->
        pushUpState s' = up /\ get c' pushUps = get c pushUps
        /\ pushUp (lastTimes s') = pushUp (lastTimes s))
  /\ (pushUpState s = down ->
      (kp_y rs <? videoHeight f * 0.25)%float = true ->
        pushUpState s' = up /\ get c' pushUps = get c pushUps + 1
        /\ pushUp (lastTimes s') = now f).
Proof.
  intros Hrs s' c'.
  pose proof (detectors_pushUp_view f (s, c) rs Hrs) as Hv.
  unfold view in Hv. fold s' c' in Hv. simpl fst in Hv. simpl snd in Hv.
  unfold pushUpView in Hv. change (lastTime pushUps ?x) with (pushUp (lastTimes x)) in Hv.
  split; [|split].
  - intros Hup Hy Ht. apply active_pushUps_up in Hup. rewrite Hup, Hy in Hv.
    replace (now f - pushUp (lastTimes s) >? 400) with true in Hv
      by (symmetry; apply Z.gtb_lt; lia).
    simpl in Hv. injection Hv as Hp Hlt Hc. apply active_pushUps_down in Hp. auto.
  - intros Hup Ht. apply active_pushUps_up in Hup. rewrite Hup in Hv.
    replace (now f - pushUp (lastTimes s) >? 400) with false in Hv
      by (symmetry; apply not_true_is_false; rewrite Z.gtb_lt; lia).
    rewrite !andb_false_r in Hv.
    injection Hv as Hp Hlt Hc. apply active_pushUps_up in Hp. auto.
  - intros Hdown Hy. apply active_pushUps_down in Hdown. rewrite Hdown, Hy in Hv.
    simpl negb in Hv. rewrite andb_false_r in Hv. simpl in Hv.
    injection Hv as Hp Hlt Hc. apply active_pushUps_up in Hp. auto.
Qed.

(** C10 (as amended).  Both the buffer and the store start at 0; a step
    of the mounted component raises a buffer count by 0 or 1 and leaves a
    store count as it was or equal to the buffer's current count; a
    remount zeroes the buffer and leaves the store as it was; a processed
    frame whose flush clock is at least 800 ms past the last flush is a
    flush; and at every state the program reaches from its first mount by
    frames, re-renders and remounts, no store count exceeds the buffer
    count, except between a remount and the first flush after it. *)
Theorem store_within_buffer_once_settled (t0 : Z) :
  (forall k, get (localCountsRef (mount t0)) k = 0 /\ get (providerCounts (mount t0)) k = 0)
  /\ (forall w ev k,
        get (localCountsRef (step hypot w ev)) k = get (localCountsRef w) k
        \/ get (localCountsRef (step hypot w ev)) k = get (localCountsRef w) k + 1)
  /\ (forall w ev k,
        get (providerCounts (step hypot w ev)) k = get (providerCounts w) k
        \/ get (providerCounts (step hypot w ev)) k
           = get (localCountsRef (step hypot w ev)) k)
  /\ (forall w t1 k,
        get (localCountsRef (remount t1 w)) k = 0
        /\ get (providerCounts (remount t1 w)) k = get (providerCounts w) k)
  /\ (forall w f, skipped f = false -> flushNow f - lastContextFlush w >= 800 ->
        flushed hypot w (Tick f) = true)
  /\ (forall acts s, In s (sessionTrace hypot (start t0) acts) -> snd s = true ->
        forall k, get (providerCounts (fst s)) k <= get (localCountsRef (fst s)) k).
Proof.
  split; [intros k; destruct k; simpl; auto|].
  split; [|split; [|split; [|split]]].
  - intros w ev k. rewrite (step_count k w ev).
    destruct (counted k _ _); [right|left]; lia.
  - intros w ev k. apply step_store.
  - intros w t1 k. split; [destruct k; reflexivity|reflexivity].
  - intros w f Hskip Hdue. unfold flushed, step, detectAndProcess.
    unfold skipped in Hskip. destruct (keypoints f) as [kps|]; [|discriminate Hskip].
    rewrite Hskip.
    destruct (detectors hypot f (stateRef w, localCountsRef w)) as [s c].
    rewrite flush_last. simpl lastContextFlush.
    replace (flushNow f - lastContextFlush w <? 800) with false
      by (symmetry; apply Z.ltb_ge; lia).
    apply negb_true_iff, Z.eqb_neq. lia.
  - intros acts s Hin Hs.
    destruct (SInv_trace acts (start t0) s (SInv_start t0) Hin) as [H _].
    apply H. exact Hs.
Qed.

End EngineProofs.

(** C7 (as amended).  The filter returns "absent" exactly when the
    keypoint is missing, its score is missing or below 0.2, or its x or y
    is NaN after the rescale; otherwise it returns the keypoint with x
    multiplied by the frame width and y by the frame height. *)
Theorem getKeypointByName_spec (kps : option Keypoints) (name : KeypointName)
    (videoWidth videoHeight : float) :
  (getKeypointByName kps name videoWidth videoHeight = None
   <-> rawKeypoint kps name = None
       \/ exists kp, rawKeypoint kps name = Some kp
                     /\ (scoreRejected kp = true
                         \/ rescaledNaN kp videoWidth videoHeight = true))
  /\ (forall kp, rawKeypoint kps name = Some kp ->
        scoreRejected kp = false ->
        rescaledNaN kp videoWidth videoHeight = false ->
        getKeypointByName kps name videoWidth videoHeight
        = Some (rescale kp videoWidth videoHeight)).
Proof.
  unfold getKeypointByName, rawKeypoint, scoreRejected, rescaledNaN, rescale.
  destruct kps as [l|]; cbv zeta.
  2:{ split; [split; auto|]. intros kp H. discriminate H. }
  destruct (nth_error l (KEYPOINT_INDEX name)) as [[kp|]|].
  2,3: split; [split; auto|]; intros kp H; discriminate H.
  split.
  - split.
    + intros H. right. exists kp. split; [reflexivity|].
      destruct (kp_score kp) as [sc|]; [|left; reflexivity].
      destruct (sc <? 0.2)%float; [left; reflexivity|]. right.
      destruct (JS.isNaN _ || JS.isNaN _); [reflexivity|discriminate H].
    + intros [H|(kp' & Hkp & H)]; [discriminate H|].
      injection Hkp as <-.
      destruct (kp_score kp) as [sc|]; [|reflexivity].
      destruct (sc <? 0.2)%float; [reflexivity|].
      destruct H as [H|H]; [discriminate H|]. rewrite H. reflexivity.
  - intros kp' Hkp Hs Hn. injection Hkp as <-.
    destruct (kp_score kp) as [sc|]; [|discriminate Hs].
    rewrite Hs, Hn. reflexivity.
Qed.

(** * The claims on concrete frames *)

(** C1 fails as stated: in these two frames only the four keypoints the
    jumping-jack detector reads are valid, the clock readings are more
    than 350 ms apart, the jumping-jack detector goes through exactly one
    cycle and no other detector goes through any, yet the high-jump count
    goes up too: the ankles are above 0.24 of the frame height. *)
Lemma jumping_jack_cycle_also_counts_high_jump :
  let w := mount 0 in
  let evs := [Tick jackOpen; Tick jackClosed] in
  forallb (onlyValid (triggers jumpingJacks)) [jackOpen; jackClosed] = true
  /\ (now jackOpen - lastTime jumpingJacks (stateRef w) > 350
      /\ now jackClosed - now jackOpen > 350)
  /\ map (fun k => oneCycle (phases jsHypot k w evs)) keys
     = [false; false; false; false; false; true; false]
  /\ get (localCountsRef (run jsHypot w evs)) jumpingJacks = 1
  /\ get (localCountsRef w) highJumps = 0
  /\ get (localCountsRef (run jsHypot w evs)) highJumps = 1.
Proof. vm_compute. repeat split; reflexivity. Qed.

(** Ten push-up oscillations in 100 ms count once. *)
Lemma debounce_separates_events_witness :
  debounce pushUps = Some 400
  /\ nondecreasing (clocks oscillation)
  /\ gapped 400 (eventTimes jsHypot pushUps (mount 0) oscillation)
  /\ get (localCountsRef (run jsHypot (mount 0) oscillation)) pushUps
     <= get (localCountsRef (mount 0)) pushUps + 1.
Proof.
  assert (Hmono : nondecreasing (clocks oscillation)) by (simpl; lia).
  split; [reflexivity|]. split; [exact Hmono|].
  destruct (debounce_separates_events jsHypot pushUps 400 (mount 0) oscillation
              eq_refl (fun _ => Hmono)) as [Hgap Hwin].
  split; [exact Hgap|].
  apply (Hwin 1000). simpl. intros x Hx. lia.
Defined.


(** A hand lift is published, the user leaves and comes back, the hand
    comes down: right after the remount the store still shows the 1 the
    old buffer held. *)
Lemma published_value_was_buffered_witness :
  let tr := sessionTrace jsHypot (start 0)
              [Act (Tick handUp); Remount 5000; Act (Tick handDown)] in
  let s := nth 2 tr (start 0) in
  nth_error tr 2 = Some s
  /\ (exists j s', (j <= 2)%nat /\ nth_error tr j = Some s'
        /\ get (providerCounts (fst s)) handLifts = get (localCountsRef (fst s')) handLifts)
  /\ (snd s = true ->
      get (providerCounts (fst s)) handLifts <= get (localCountsRef (fst s)) handLifts).
Proof.
  split; [reflexivity|].
  apply (published_value_was_buffered jsHypot 0
           [Act (Tick handUp); Remount 5000; Act (Tick handDown)] 2).
  reflexivity.
Defined.

(** C6 fails as stated: every keypoint of this frame is missing or has a
    coordinate that is not finite, yet the filter keeps the wrist and the
    shoulder and a hand lift is counted. *)
Lemma infinite_coordinates_count_a_hand_lift :
  forallb (fun name => failsValidationAsWorded (keypoints offScale) name
                         (videoWidth offScale) (videoHeight offScale)) all_names = true
  /\ handLifted (stateRef (mount 0)) = false
  /\ handLifted (stateRef (run jsHypot (mount 0) [Tick offScale])) = true
  /\ get (localCountsRef (run jsHypot (mount 0) [Tick offScale])) handLifts = 1.
Proof. repeat split; reflexivity. Qed.

Lemma unusable_noValid : noValidKeypoint unusable.
Proof. intros name. destruct name; reflexivity. Qed.

(** Two unusable skeletons and a render leave everything as mounted. *)
Lemma no_valid_keypoint_no_change_witness :
  let evs := [Tick unusable; Render; Tick unusable] in
  Forall (noValidKeypointEv) evs
  /\ stateRef (run jsHypot (mount 0) evs) = initialStateRef
  /\ localCountsRef (run jsHypot (mount 0) evs) = defaultLocalCounts
  /\ providerCounts (run jsHypot (mount 0) evs) = defaultLocalCounts.
Proof.
  assert (H : Forall (noValidKeypointEv) [Tick unusable; Render; Tick unusable]).
  { repeat constructor; exact unusable_noValid. }
  split; [exact H|].
  destruct (no_valid_keypoint_no_change jsHypot _ (mount 0) H) as (Hs & Hl & Hp).
  split; [exact Hs|]. split; [exact Hl|]. apply Hp. intros k. reflexivity.
Defined.

(** The first low shoulder after mounting takes the detector down. *)
Lemma pushUp_transitions_witness :
  let r := detectors jsHypot (shoulderLow 1000) (initialStateRef, defaultLocalCounts) in
  getKeypointByName (keypoints (shoulderLow 1000)) right_shoulder 640 480
    = Some (mkKeypoint 320 288 (Some 0.9%float))
  /\ pushUpState (fst r) = down
  /\ get (snd r) pushUps = 0
  /\ pushUp (lastTimes (fst r)) = 0.
Proof.
  split; [reflexivity|].
  apply (pushUp_transitions jsHypot (shoulderLow 1000) initialStateRef defaultLocalCounts
           (mkKeypoint 320 288 (Some 0.9%float)) eq_refl);
    [reflexivity|reflexivity|simpl; lia].
Defined.

(** C7 fails as stated: after the rescale this keypoint's x is infinite,
    not a finite number, and the filter returns it. *)
Lemma filter_keeps_infinite_coordinate :
  rescaledNotFinite farAway 640 480 = true
  /\ getKeypointByName (Some [Some farAway]) nose 640 480
     = Some (mkKeypoint infinity 240 (Some 0.9%float)).
Proof. split; reflexivity. Qed.


(** * More of the buffered component: proofs *)

(** ** The order of binary64, from its specification *)

Lemma SFcompare_Lt_Gt (a b : SpecFloat.spec_float) :
  SpecFloat.SFcompare a b = Some Lt -> SpecFloat.SFcompare b a = Some Gt.
Proof.
  destruct a as [sa|sa| |sa ma ea], b as [sb|sb| |sb mb eb]; simpl;
    try discriminate; try (destruct sa; discriminate); try (destruct sb; discriminate);
    try (destruct sa, sb; discriminate || reflexivity).
  all: try (destruct sa; intros H; (discriminate H || reflexivity)).
  all: try (destruct sb; intros H; (discriminate H || reflexivity)).
  assert (Hm : Pos.compare_cont Eq mb ma = CompOpp (Pos.compare_cont Eq ma mb)).
  { rewrite Pos.compare_cont_antisym. reflexivity. }
  rewrite (Z.compare_antisym ea eb), Hm.
  destruct sa, sb; try discriminate; try reflexivity;
    destruct (ea ?= eb)%Z; simpl; try discriminate; try reflexivity;
    destruct (Pos.compare_cont Eq ma mb); simpl; try discriminate; reflexivity.
Qed.

(** [a < b] and [a >= b] never both hold. *)
Lemma lt_not_ge (a b : float) : (a <? b)%float = true -> (a >=? b)%float = false.
Proof.
  unfold JS.geb. rewrite FloatAxioms.ltb_spec, FloatAxioms.leb_spec.
  unfold SpecFloat.SFltb, SpecFloat.SFleb.
  destruct (SpecFloat.SFcompare (FloatOps.Prim2SF a) (FloatOps.Prim2SF b))
    as [[| |]|] eqn:E; try discriminate.
  intros _. rewrite (SFcompare_Lt_Gt _ _ E). reflexivity.
Qed.

Lemma ge_not_lt (a b : float) : (a >=? b)%float = true -> (a <? b)%float = false.
Proof.
  intros H. destruct (a <? b)%float eqn:E; [|reflexivity].
  rewrite (lt_not_ge a b E) in H. discriminate H.
Qed.

Lemma UpDown_eqb_eq (a b : UpDown) : UpDown_eqb a b = true <-> a = b.
Proof. destruct a, b; simpl; split; congruence. Qed.

Lemma UpDown_not_down (a : UpDown) : UpDown_eqb a down = false <-> a = up.
Proof. destruct a; simpl; split; congruence. Qed.

Lemma UpDown_not_up (a : UpDown) : UpDown_eqb a up = false <-> a = down.
Proof. destruct a; simpl; split; congruence. Qed.

Lemma OpenClosed_eqb_eq (a b : OpenClosed) : OpenClosed_eqb a b = true <-> a = b.
Proof. destruct a, b; simpl; split; congruence. Qed.

Lemma OpenClosed_not_open (a : OpenClosed) : OpenClosed_eqb a open = false <-> a = closed.
Proof. destruct a; simpl; split; congruence. Qed.

(** ** Each block reads nothing but its own detector's view *)

Ltac local_block :=
  intros [s1 c1] [s2 c2]; unfold view; simpl fst; simpl snd;
  intros E; injection E; clear E; intros; unfold active, lastTime in *;
  cbv beta delta [handLiftBlock pushUpBlock highJumpBlock
    squatBlock jumpingJackBlock lungeBlock blinkBlock] iota zeta;
  repeat match goal with
  | |- context [match ?o with Some _ => _ | None => _ end] => destruct o
  end;
  try (simpl; congruence);
  repeat match goal with
  | H : UpDown_eqb ?a _ = UpDown_eqb ?b _ |- _ =>
    destruct a eqn:?, b eqn:?; try discriminate H; clear H
  | H : OpenClosed_eqb ?a _ = OpenClosed_eqb ?b _ |- _ =>
    destruct a eqn:?, b eqn:?; try discriminate H; clear H
  | H : handLifted ?a = handLifted ?b |- _ =>
    destruct (handLifted a) eqn:?, (handLifted b) eqn:?; try discriminate H; clear H
  | H : blinkDetected ?a = blinkDetected ?b |- _ =>
    destruct (blinkDetected a) eqn:?, (blinkDetected b) eqn:?; try discriminate H; clear H
  end;
  simpl UpDown_eqb; simpl OpenClosed_eqb; simpl negb;
  split_ifs; simpl in *; congruence.

Lemma handLiftBlock_local lw ls : forall r1 r2,
  view handLifts r1 = view handLifts r2 ->
  view handLifts (handLiftBlock lw ls r1) = view handLifts (handLiftBlock lw ls r2).
Proof. local_block. Qed.

Lemma pushUpBlock_local rs H t : forall r1 r2,
  view pushUps r1 = view pushUps r2 ->
  view pushUps (pushUpBlock rs H t r1) = view pushUps (pushUpBlock rs H t r2).
Proof. local_block. Qed.

Lemma highJumpBlock_local la ra H t : forall r1 r2,
  view highJumps r1 = view highJumps r2 ->
  view highJumps (highJumpBlock la ra H t r1) = view highJumps (highJumpBlock la ra H t r2).
Proof. local_block. Qed.

Lemma squatBlock_local lk lh t : forall r1 r2,
  view squats r1 = view squats r2 ->
  view squats (squatBlock lk lh t r1) = view squats (squatBlock lk lh t r2).
Proof. local_block. Qed.

Lemma jumpingJackBlock_local lw rw la ra W t : forall r1 r2,
  view jumpingJacks r1 = view jumpingJacks r2 ->
  view jumpingJacks (jumpingJackBlock lw rw la ra W t r1)
  = view jumpingJacks (jumpingJackBlock lw rw la ra W t r2).
Proof. local_block. Qed.

Lemma lungeBlock_local rk rh t : forall r1 r2,
  view lunges r1 = view lunges r2 ->
  view lunges (lungeBlock rk rh t r1) = view lunges (lungeBlock rk rh t r2).
Proof. local_block. Qed.

Section EngineMoreProofs.

Variable hypot : float -> float -> float.

Lemma blinkBlock_local le re no t : forall r1 r2,
  view eyeBlinks r1 = view eyeBlinks r2 ->
  view eyeBlinks (blinkBlock hypot le re no t r1)
  = view eyeBlinks (blinkBlock hypot le re no t r2).
Proof. local_block. Qed.

(** ** A frame pass, detector by detector *)

Lemma detectors_view_block (d : CountKey) (f : Frame) (r : Refs) :
  view d (detectors hypot f r) = view d (blockOf hypot d f r).
Proof.
  unfold detectors, blockOf. destruct d.
  - rewrite lungeBlock_frame, jumpingJackBlock_frame, squatBlock_frame,
      highJumpBlock_frame, pushUpBlock_frame, blinkBlock_frame by discriminate.
    reflexivity.
  - rewrite lungeBlock_frame, jumpingJackBlock_frame, squatBlock_frame,
      highJumpBlock_frame, pushUpBlock_frame by discriminate.
    apply blinkBlock_local. apply handLiftBlock_frame. discriminate.
  - rewrite lungeBlock_frame, jumpingJackBlock_frame, squatBlock_frame,
      highJumpBlock_frame by discriminate.
    apply pushUpBlock_local.
    rewrite blinkBlock_frame, handLiftBlock_frame by discriminate. reflexivity.
  - rewrite lungeBlock_frame, jumpingJackBlock_frame, squatBlock_frame by discriminate.
    apply highJumpBlock_local.
    rewrite pushUpBlock_frame, blinkBlock_frame, handLiftBlock_frame by discriminate.
    reflexivity.
  - rewrite lungeBlock_frame, jumpingJackBlock_frame by discriminate.
    apply squatBlock_local.
    rewrite highJumpBlock_frame, pushUpBlock_frame, blinkBlock_frame,
      handLiftBlock_frame by discriminate.
    reflexivity.
  - rewrite lungeBlock_frame by discriminate.
    apply jumpingJackBlock_local.
    rewrite squatBlock_frame, highJumpBlock_frame, pushUpBlock_frame,
      blinkBlock_frame, handLiftBlock_frame by discriminate.
    reflexivity.
  - apply lungeBlock_local.
    rewrite jumpingJackBlock_frame, squatBlock_frame, highJumpBlock_frame,
      pushUpBlock_frame, blinkBlock_frame, handLiftBlock_frame by discriminate.
    reflexivity.
Qed.

(** The cells after an event, as a function of the cells before and the
    event alone. *)
Lemma step_refs (w : World) (ev : Event) :
  refs (step hypot w ev)
  = match ev with
    | Tick f => if skipped f then refs w else detectors hypot f (refs w)
    | Render => refs w
    end.
Proof.
  destruct ev as [f|]; [|reflexivity].
  unfold step, detectAndProcess, skipped, refs.
  destruct (keypoints f) as [kps|]; [|reflexivity].
  destruct (length kps <? 17)%nat; [reflexivity|].
  destruct (detectors hypot f (stateRef w, localCountsRef w)) as [s c].
  match goal with |- context [flushCountsToContext ?t ?w0] =>
    destruct (flush_refs t w0) as (H1 & H2 & _) end.
  rewrite H1, H2. reflexivity.
Qed.

(** ** The table of each detector, over a whole frame pass *)

(** X1.  After a frame pass, what a detector holds (its state, its clock,
    its count) is what its own block alone computes from the cells as
    they were before the frame: the other six blocks do not affect it. *)
Theorem detectors_independent (d : CountKey) (f : Frame) (r : Refs) :
  active d (fst (detectors hypot f r)) = active d (fst (blockOf hypot d f r))
  /\ lastTime d (fst (detectors hypot f r)) = lastTime d (fst (blockOf hypot d f r))
  /\ get (snd (detectors hypot f r)) d = get (snd (blockOf hypot d f r)) d.
Proof.
  pose proof (detectors_view_block d f r) as H. unfold view in H.
  injection H as H1 H2 H3. auto.
Qed.

Ltac gt_true t D :=
  match goal with
  | H : context [Z.gtb t D] |- _ =>
    replace (Z.gtb t D) with true in H by (symmetry; apply Z.gtb_lt; lia)
  end.

Ltac gt_false t D :=
  match goal with
  | H : context [Z.gtb t D] |- _ =>
    replace (Z.gtb t D) with false in H
      by (symmetry; apply not_true_is_false; rewrite Z.gtb_lt; lia)
  end.

(** X2.  Hand lift, with valid left wrist and left shoulder: at rest and
    wrist.y < shoulder.y + 10, it becomes lifted and counts one; already
    lifted and wrist.y < shoulder.y + 10, nothing changes; wrist.y >=
    shoulder.y + 10, it is at rest afterwards and nothing is counted. *)
Theorem handLift_transitions (f : Frame) (s : StateRef) (c : Counts) (lw ls : Keypoint) :
  getKeypointByName (keypoints f) left_wrist (videoWidth f) (videoHeight f) = Some lw ->
  getKeypointByName (keypoints f) left_shoulder (videoWidth f) (videoHeight f) = Some ls ->
  let s' := fst (detectors hypot f (s, c)) in
  let c' := snd (detectors hypot f (s, c)) in
  (handLifted s = false -> (kp_y lw <? kp_y ls + 10)%float = true ->
     handLifted s' = true /\ get c' handLifts = get c handLifts + 1)
  /\ (handLifted s = true -> (kp_y lw <? kp_y ls + 10)%float = true ->
        handLifted s' = true /\ get c' handLifts = get c handLifts)
  /\ ((kp_y lw >=? kp_y ls + 10)%float = true ->
        handLifted s' = false /\ get c' handLifts = get c handLifts).
Proof.
  intros Hlw Hls s' c'.
  pose proof (detectors_view_block handLifts f (s, c)) as Hv.
  unfold blockOf in Hv. cbv zeta in Hv. rewrite Hlw, Hls in Hv.
  unfold view in Hv. fold s' c' in Hv. unfold handLiftBlock in Hv.
  change (active handLifts ?x) with (handLifted x) in Hv.
  split; [|split].
  - intros Hs Hy. rewrite Hs, Hy in Hv. simpl in Hv.
    injection Hv as H1 H3. auto.
  - intros Hs Hy. rewrite Hs, Hy, (lt_not_ge _ _ Hy) in Hv. simpl in Hv.
    injection Hv as H1 H3. rewrite Hs in H1. auto.
  - intros Hy. rewrite Hy, (ge_not_lt _ _ Hy) in Hv. simpl in Hv.
    injection Hv as H1 H3. auto.
Qed.

(** X3.  Eye blink, with valid eyes and nose: at rest, earAvg < 80 and
    more than 250 ms since its last count, it becomes detected, counts one
    and restarts its clock; at rest and no more than 250 ms since its last
    count, it stays at rest and counts nothing; detected and earAvg > 95,
    it goes back to rest; detected and earAvg not above 95, nothing
    changes. *)
Theorem blink_transitions (f : Frame) (s : StateRef) (c : Counts) (le re no : Keypoint) :
  getKeypointByName (keypoints f) left_eye (videoWidth f) (videoHeight f) = Some le ->
  getKeypointByName (keypoints f) right_eye (videoWidth f) (videoHeight f) = Some re ->
  getKeypointByName (keypoints f) nose (videoWidth f) (videoHeight f) = Some no ->
  let s' := fst (detectors hypot f (s, c)) in
  let c' := snd (detectors hypot f (s, c)) in
  let a := earAvg hypot le re no in
  (blinkDetected s = false -> (a <? 80)%float = true ->
   now f - blink (lastTimes s) > 250 ->
     blinkDetected s' = true /\ get c' eyeBlinks = get c eyeBlinks + 1
     /\ blink (lastTimes s') = now f)
  /\ (blinkDetected s = false -> now f - blink (lastTimes s) <= 250 ->
        blinkDetected s' = false /\ get c' eyeBlinks = get c eyeBlinks
        /\ blink (lastTimes s') = blink (lastTimes s))
  /\ (blinkDetected s = true -> (a >? 95)%float = true ->
        blinkDetected s' = false /\ get c' eyeBlinks = get c eyeBlinks
        /\ blink (lastTimes s') = blink (lastTimes s))
  /\ (blinkDetected s = true -> (a >? 95)%float = false ->
        blinkDetected s' = true /\ get c' eyeBlinks = get c eyeBlinks
        /\ blink (lastTimes s') = blink (lastTimes s)).
Proof.
  intros Hle Hre Hno s' c' a.
  pose proof (detectors_view_block eyeBlinks f (s, c)) as Hv.
  unfold blockOf in Hv. cbv zeta in Hv. rewrite Hle, Hre, Hno in Hv.
  unfold view in Hv. fold s' c' in Hv. unfold blinkBlock in Hv. cbv zeta in Hv.
  fold (earAvg hypot le re no) in Hv. fold a in Hv.
  change (active eyeBlinks ?x) with (blinkDetected x) in Hv.
  change (lastTime eyeBlinks ?x) with (blink (lastTimes x)) in Hv.
  split; [|split; [|split]].
  - intros Hs Ha Ht. rewrite Hs, Ha in Hv.
    gt_true (now f - blink (lastTimes s)) 250. simpl in Hv.
    injection Hv as H1 H2 H3. auto.
  - intros Hs Ht. rewrite Hs in Hv.
    gt_false (now f - blink (lastTimes s)) 250. rewrite andb_false_r in Hv.
    destruct (a >? 95)%float; simpl in Hv; injection Hv as H1 H2 H3;
      rewrite ?Hs in H1; auto.
  - intros Hs Ha. rewrite Hs, Ha in Hv. simpl negb in Hv.
    rewrite andb_false_r in Hv. simpl in Hv. injection Hv as H1 H2 H3. auto.
  - intros Hs Ha. rewrite Hs, Ha in Hv. simpl negb in Hv.
    rewrite andb_false_r in Hv. simpl in Hv. injection Hv as H1 H2 H3.
    rewrite Hs in H1. auto.
Qed.

(** X4.  High jump, with valid ankles: "down", mean ankle y below 0.24 of
    the frame height and more than 500 ms since its last count, it goes
    "up", counts one and restarts its clock; "down" and no more than
    500 ms since its last count, it stays "down" and counts nothing;
    "up" and mean ankle y above 0.66 of the frame height, it goes "down";
    "up" and not above that line, nothing changes. *)
Theorem highJump_transitions (f : Frame) (s : StateRef) (c : Counts) (la ra : Keypoint) :
  getKeypointByName (keypoints f) left_ankle (videoWidth f) (videoHeight f) = Some la ->
  getKeypointByName (keypoints f) right_ankle (videoWidth f) (videoHeight f) = Some ra ->
  let s' := fst (detectors hypot f (s, c)) in
  let c' := snd (detectors hypot f (s, c)) in
  let ankleAvgY := ((kp_y la + kp_y ra) / 2)%float in
  (highJumpState s = down -> (ankleAvgY <? videoHeight f * 0.24)%float = true ->
   now f - highJump (lastTimes s) > 500 ->
     highJumpState s' = up /\ get c' highJumps = get c highJumps + 1
     /\ highJump (lastTimes s') = now f)
  /\ (highJumpState s = down -> now f - highJump (lastTimes s) <= 500 ->
        highJumpState s' = down /\ get c' highJumps = get c highJumps
        /\ highJump (lastTimes s') = highJump (lastTimes s))
  /\ (highJumpState s = up -> (ankleAvgY >? videoHeight f * 0.66)%float = true ->
        highJumpState s' = down /\ get c' highJumps = get c highJumps
        /\ highJump (lastTimes s') = highJump (lastTimes s))
  /\ (highJumpState s = up -> (ankleAvgY >? videoHeight f * 0.66)%float = false ->
        highJumpState s' = up /\ get c' highJumps = get c highJumps
        /\ highJump (lastTimes s') = highJump (lastTimes s)).
Proof.
  intros Hla Hra s' c' a.
  pose proof (detectors_view_block highJumps f (s, c)) as Hv.
  unfold blockOf in Hv. cbv zeta in Hv. rewrite Hla, Hra in Hv.
  unfold view in Hv. fold s' c' in Hv. unfold highJumpBlock in Hv. cbv zeta in Hv.
  fold a in Hv.
  change (active highJumps ?x) with (UpDown_eqb (highJumpState x) up) in Hv.
  change (lastTime highJumps ?x) with (highJump (lastTimes x)) in Hv.
  split; [|split; [|split]].
  - intros Hs Ha Ht. rewrite Hs, Ha in Hv.
    gt_true (now f - highJump (lastTimes s)) 500. simpl in Hv.
    injection Hv as H1 H2 H3. apply UpDown_eqb_eq in H1. auto.
  - intros Hs Ht. rewrite Hs in Hv.
    gt_false (now f - highJump (lastTimes s)) 500. rewrite andb_false_r in Hv.
    destruct (a >? videoHeight f * 0.66)%float; simpl in Hv; injection Hv as H1 H2 H3;
      rewrite ?Hs in H1; apply UpDown_not_up in H1; auto.
  - intros Hs Ha. rewrite Hs, Ha in Hv. simpl UpDown_eqb in Hv.
    rewrite andb_false_r in Hv. simpl in Hv. injection Hv as H1 H2 H3.
    apply UpDown_not_up in H1. auto.
  - intros Hs Ha. rewrite Hs, Ha in Hv. simpl UpDown_eqb in Hv.
    rewrite andb_false_r in Hv. simpl in Hv. injection Hv as H1 H2 H3.
    rewrite Hs in H1. apply UpDown_eqb_eq in H1. auto.
Qed.

(** X5.  Squat, with valid left knee and left hip: "up", knee.y > hip.y +
    40 and more than 500 ms since its last count, it goes "down" without
    counting; "up" and no more than 500 ms since its last count, nothing
    changes; "down" and knee.y < hip.y + 10, it goes "up", counts one and
    restarts its clock; "down" and knee.y not below hip.y + 10, nothing
    changes. *)
Theorem squat_transitions (f : Frame) (s : StateRef) (c : Counts) (lk lh : Keypoint) :
  getKeypointByName (keypoints f) left_knee (videoWidth f) (videoHeight f) = Some lk ->
  getKeypointByName (keypoints f) left_hip (videoWidth f) (videoHeight f) = Some lh ->
  let s' := fst (detectors hypot f (s, c)) in
  let c' := snd (detectors hypot f (s, c)) in
  (squatState s = up -> (kp_y lk >? kp_y lh + 40)%float = true ->
   now f - squat (lastTimes s) > 500 ->
     squatState s' = down /\ get c' squats = get c squats
     /\ squat (lastTimes s') = squat (lastTimes s))
  /\ (squatState s = up -> now f - squat (lastTimes s) <= 500 ->
        squatState s' = up /\ get c' squats = get c squats
        /\ squat (lastTimes s') = squat (lastTimes s))
  /\ (squatState s = down -> (kp_y lk <? kp_y lh + 10)%float = true ->
        squatState s' = up /\ get c' squats = get c squats + 1
        /\ squat (lastTimes s') = now f)
  /\ (squatState s = down -> (kp_y lk <? kp_y lh + 10)%float = false ->
        squatState s' = down /\ get c' squats = get c squats
        /\ squat (lastTimes s') = squat (lastTimes s)).
Proof.
  intros Hlk Hlh s' c'.
  pose proof (detectors_view_block squats f (s, c)) as Hv.
  unfold blockOf in Hv. cbv zeta in Hv. rewrite Hlk, Hlh in Hv.
  unfold view in Hv. fold s' c' in Hv. unfold squatBlock in Hv.
  change (active squats ?x) with (UpDown_eqb (squatState x) down) in Hv.
  change (lastTime squats ?x) with (squat (lastTimes x)) in Hv.
  split; [|split; [|split]].
  - intros Hs Hy Ht. rewrite Hs, Hy in Hv.
    gt_true (now f - squat (lastTimes s)) 500. simpl in Hv.
    injection Hv as H1 H2 H3. apply UpDown_eqb_eq in H1. auto.
  - intros Hs Ht. rewrite Hs in Hv.
    gt_false (now f - squat (lastTimes s)) 500. simpl UpDown_eqb in Hv.
    rewrite !andb_false_r in Hv. simpl in Hv. injection Hv as H1 H2 H3.
    rewrite Hs in H1. apply UpDown_not_down in H1. auto.
  - intros Hs Hy. rewrite Hs, Hy in Hv. simpl UpDown_eqb in Hv.
    rewrite andb_false_r in Hv. simpl in Hv. injection Hv as H1 H2 H3.
    apply UpDown_not_down in H1. auto.
  - intros Hs Hy. rewrite Hs, Hy in Hv. simpl UpDown_eqb in Hv.
    rewrite andb_false_r in Hv. simpl in Hv. injection Hv as H1 H2 H3.
    rewrite Hs in H1. apply UpDown_eqb_eq in H1. auto.
Qed.

(** X6.  Jumping jack, with valid wrists and ankles: "closed", arm spread
    above 0.34 and leg spread above 0.18 of the frame width, and more
    than 350 ms since its last count, it goes "open", counts one and
    restarts its clock; "closed" and no more than 350 ms since its last
    count, it stays "closed" and counts nothing; "open", arm spread below
    0.12 and leg spread below 0.06 of the frame width, it goes "closed";
    "open" and not both below, nothing changes. *)
Theorem jumpingJack_transitions (f : Frame) (s : StateRef) (c : Counts)
    (lw rw la ra : Keypoint) :
  getKeypointByName (keypoints f) left_wrist (videoWidth f) (videoHeight f) = Some lw ->
  getKeypointByName (keypoints f) right_wrist (videoWidth f) (videoHeight f) = Some rw ->
  getKeypointByName (keypoints f) left_ankle (videoWidth f) (videoHeight f) = Some la ->
  getKeypointByName (keypoints f) right_ankle (videoWidth f) (videoHeight f) = Some ra ->
  let s' := fst (detectors hypot f (s, c)) in
  let c' := snd (detectors hypot f (s, c)) in
  let armSpread := abs (kp_x lw - kp_x rw)%float in
  let legSpread := abs (kp_x la - kp_x ra)%float in
  let together := ((armSpread <? videoWidth f * 0.12) && (legSpread <? videoWidth f * 0.06))%float in
  (jumpingJackState s = closed ->
   (armSpread >? videoWidth f * 0.34)%float = true ->
   (legSpread >? videoWidth f * 0.18)%float = true ->
   now f - jumpingJack (lastTimes s) > 350 ->
     jumpingJackState s' = open /\ get c' jumpingJacks = get c jumpingJacks + 1
     /\ jumpingJack (lastTimes s') = now f)
  /\ (jumpingJackState s = closed -> now f - jumpingJack (lastTimes s) <= 350 ->
        jumpingJackState s' = closed /\ get c' jumpingJacks = get c jumpingJacks
        /\ jumpingJack (lastTimes s') = jumpingJack (lastTimes s))
  /\ (jumpingJackState s = open -> together = true ->
        jumpingJackState s' = closed /\ get c' jumpingJacks = get c jumpingJacks
        /\ jumpingJack (lastTimes s') = jumpingJack (lastTimes s))
  /\ (jumpingJackState s = open -> together = false ->
        jumpingJackState s' = open /\ get c' jumpingJacks = get c jumpingJacks
        /\ jumpingJack (lastTimes s') = jumpingJack (lastTimes s)).
Proof.
  intros Hlw Hrw Hla Hra s' c' arm leg together.
  pose proof (detectors_view_block jumpingJacks f (s, c)) as Hv.
  unfold blockOf in Hv. cbv zeta in Hv. rewrite Hlw, Hrw, Hla, Hra in Hv.
  unfold view in Hv. fold s' c' in Hv. unfold jumpingJackBlock in Hv. cbv zeta in Hv.
  fold arm leg in Hv. fold together in Hv.
  change (active jumpingJacks ?x) with (OpenClosed_eqb (jumpingJackState x) open) in Hv.
  change (lastTime jumpingJacks ?x) with (jumpingJack (lastTimes x)) in Hv.
  split; [|split; [|split]].
  - intros Hs Ha Hl Ht. rewrite Hs, Ha, Hl in Hv.
    gt_true (now f - jumpingJack (lastTimes s)) 350. simpl in Hv.
    injection Hv as H1 H2 H3. apply OpenClosed_eqb_eq in H1. auto.
  - intros Hs Ht. rewrite Hs in Hv.
    gt_false (now f - jumpingJack (lastTimes s)) 350. rewrite andb_false_r in Hv.
    destruct together; simpl in Hv; injection Hv as H1 H2 H3;
      rewrite ?Hs in H1; apply OpenClosed_not_open in H1; auto.
  - intros Hs Ha. rewrite Hs, Ha in Hv. simpl OpenClosed_eqb in Hv.
    rewrite andb_false_r in Hv. simpl in Hv. injection Hv as H1 H2 H3.
    apply OpenClosed_not_open in H1. auto.
  - intros Hs Ha. rewrite Hs, Ha in Hv. simpl OpenClosed_eqb in Hv.
    rewrite andb_false_r in Hv. simpl in Hv. injection Hv as H1 H2 H3.
    rewrite Hs in H1. apply OpenClosed_eqb_eq in H1. auto.
Qed.

(** X7.  Lunge, with valid right knee and right hip: "up", the knee-hip
    distance in y above 80, knee.x > hip.x + 10 and more than 500 ms
    since its last count, it goes "down" without counting; "up" and no
    more than 500 ms since its last count, nothing changes; "down" and the
    distance below 40, it goes "up", counts one and restarts its clock;
    "down" and the distance not below 40, nothing changes. *)
Theorem lunge_transitions (f : Frame) (s : StateRef) (c : Counts) (rk rh : Keypoint) :
  getKeypointByName (keypoints f) right_knee (videoWidth f) (videoHeight f) = Some rk ->
  getKeypointByName (keypoints f) right_hip (videoWidth f) (videoHeight f) = Some rh ->
  let s' := fst (detectors hypot f (s, c)) in
  let c' := snd (detectors hypot f (s, c)) in
  let kneeHipDistance := abs (kp_y rk - kp_y rh)%float in
  (lungeState s = up -> (kneeHipDistance >? 80)%float = true ->
   (kp_x rk >? kp_x rh + 10)%float = true ->
   now f - lunge (lastTimes s) > 500 ->
     lungeState s' = down /\ get c' lunges = get c lunges
     /\ lunge (lastTimes s') = lunge (lastTimes s))
  /\ (lungeState s = up -> now f - lunge (lastTimes s) <= 500 ->
        lungeState s' = up /\ get c' lunges = get c lunges
        /\ lunge (lastTimes s') = lunge (lastTimes s))
  /\ (lungeState s = down -> (kneeHipDistance <? 40)%float = true ->
        lungeState s' = up /\ get c' lunges = get c lunges + 1
        /\ lunge (lastTimes s') = now f)
  /\ (lungeState s = down -> (kneeHipDistance <? 40)%float = false ->
        lungeState s' = down /\ get c' lunges = get c lunges
        /\ lunge (lastTimes s') = lunge (lastTimes s)).
Proof.
  intros Hrk Hrh s' c' dist.
  pose proof (detectors_view_block lunges f (s, c)) as Hv.
  unfold blockOf in Hv. cbv zeta in Hv. rewrite Hrk, Hrh in Hv.
  unfold view in Hv. fold s' c' in Hv. unfold lungeBlock in Hv. cbv zeta in Hv.
  fold dist in Hv.
  change (active lunges ?x) with (UpDown_eqb (lungeState x) down) in Hv.
  change (lastTime lunges ?x) with (lunge (lastTimes x)) in Hv.
  split; [|split; [|split]].
  - intros Hs Hd Hx Ht. rewrite Hs, Hd, Hx in Hv.
    gt_true (now f - lunge (lastTimes s)) 500. simpl in Hv.
    injection Hv as H1 H2 H3. apply UpDown_eqb_eq in H1. auto.
  - intros Hs Ht. rewrite Hs in Hv.
    gt_false (now f - lunge (lastTimes s)) 500. simpl UpDown_eqb in Hv.
    rewrite !andb_false_r in Hv. simpl in Hv. injection Hv as H1 H2 H3.
    rewrite Hs in H1. apply UpDown_not_down in H1. auto.
  - intros Hs Hd. rewrite Hs, Hd in Hv. simpl UpDown_eqb in Hv.
    rewrite andb_false_r in Hv. simpl in Hv. injection Hv as H1 H2 H3.
    apply UpDown_not_down in H1. auto.
  - intros Hs Hd. rewrite Hs, Hd in Hv. simpl UpDown_eqb in Hv.
    rewrite andb_false_r in Hv. simpl in Hv. injection Hv as H1 H2 H3.
    rewrite Hs in H1. apply UpDown_eqb_eq in H1. auto.
Qed.

(** ** Runs *)

Lemma blockOf_no_rearm (d : CountKey) (f : Frame) (r : Refs) :
  rearms hypot d f = false ->
  counted d (active d (fst (blockOf hypot d f r))) (active d (fst r)) = false.
Proof.
  destruct r as [[hl bd pu hj sq jj lu lt] c].
  destruct d; unfold rearms, blockOf, counted, earAvg; cbv zeta; simpl emitsOnReturn;
    cbv iota;
    cbv beta delta [handLiftBlock pushUpBlock highJumpBlock
      squatBlock jumpingJackBlock lungeBlock blinkBlock] iota zeta;
    repeat match goal with
    | |- context [match ?o with Some _ => _ | None => _ end] => destruct o
    end;
    intros Hr; rewrite ?Hr; simpl;
    repeat match goal with
    | |- context [UpDown_eqb ?x _] => is_var x; destruct x; simpl
    | |- context [OpenClosed_eqb ?x _] => is_var x; destruct x; simpl
    | |- context [negb ?x] => is_var x; destruct x; simpl
    end;
    rewrite ?andb_false_r, ?andb_true_r; simpl;
    split_ifs; simpl; try reflexivity;
    repeat match goal with
    | x : bool |- _ => destruct x
    end; reflexivity.
Qed.

Lemma step_no_rearm (d : CountKey) (w : World) (f : Frame) :
  rearms hypot d f = false ->
  counted d (active d (stateRef (step hypot w (Tick f)))) (active d (stateRef w)) = false.
Proof.
  intros Hr. pose proof (step_refs w (Tick f)) as H.
  set (w' := step hypot w (Tick f)) in *. cbv iota in H.
  destruct (skipped f).
  - unfold refs in H. injection H as Hs _. rewrite Hs.
    unfold counted. destruct (emitsOnReturn d), (active d (stateRef w)); reflexivity.
  - assert (Ha : active d (stateRef w') = active d (fst (blockOf hypot d f (refs w)))).
    { pose proof (detectors_view_block d f (refs w)) as Hv. rewrite <- H in Hv.
      unfold view in Hv. injection Hv as H1 _ _. exact H1. }
    rewrite Ha. exact (blockOf_no_rearm d f (refs w) Hr).
Qed.

Lemma counted_same d a : counted d a a = false.
Proof. unfold counted. destruct (emitsOnReturn d), a; reflexivity. Qed.

Lemma run_noBack (d : CountKey) (evs : list Event) : forall w,
  (forall f, In f (ticks evs) -> rearms hypot d f = false) ->
  noBack d (phases hypot d w evs) = true.
Proof.
  induction evs as [|ev evs IH]; intros w H; [reflexivity|].
  rewrite phases_cons.
  destruct (phases_head hypot d (step hypot w ev) evs) as [l Hl].
  assert (Htl : noBack d (phases hypot d (step hypot w ev) evs) = true).
  { apply IH. intros f Hf. apply H. unfold ticks. simpl flat_map.
    apply in_or_app. right. exact Hf. }
  rewrite Hl in Htl |- *.
  change (noBack d (active d (stateRef w) :: active d (stateRef (step hypot w ev)) :: l))
    with (negb (counted d (active d (stateRef (step hypot w ev))) (active d (stateRef w)))
          && noBack d (active d (stateRef (step hypot w ev)) :: l)).
  rewrite Htl, andb_true_r.
  apply negb_true_iff. destruct ev as [f|].
  - apply step_no_rearm. apply H. left. reflexivity.
  - apply counted_same.
Qed.

Lemma noBack_counted (d : CountKey) (l : list bool) : forall a,
  noBack d (a :: l) = true ->
  0 <= countedTransitions d (a :: l) <= 1
  /\ ((if emitsOnReturn d then negb a else a) = true ->
      countedTransitions d (a :: l) = 0).
Proof.
  induction l as [|b l IH]; intros a H; [simpl; split; [lia|reflexivity]|].
  change (noBack d (a :: b :: l)) with (negb (counted d b a) && noBack d (b :: l)) in H.
  apply andb_true_iff in H. destruct H as [Hba Hl]. apply negb_true_iff in Hba.
  destruct (IH b Hl) as [Hrange Hpost].
  change (countedTransitions d (a :: b :: l))
    with ((if counted d a b then 1 else 0) + countedTransitions d (b :: l)).
  unfold counted in *. destruct (emitsOnReturn d), a, b; simpl in *;
    try discriminate Hba; try (rewrite (Hpost eq_refl)); split; try lia;
    intros; try discriminate; try lia.
Qed.

(** X8.  A pose that is held is counted once: over any run in which no
    frame passes the geometric test of the detector's non-counting
    transition, the detector's count goes up by at most 1. *)
Theorem held_pose_counts_once (d : CountKey) (w : World) (evs : list Event) :
  (forall f, In f (ticks evs) -> rearms hypot d f = false) ->
  get (localCountsRef w) d <= get (localCountsRef (run hypot w evs)) d
  /\ get (localCountsRef (run hypot w evs)) d <= get (localCountsRef w) d + 1.
Proof.
  intros H. rewrite run_count.
  destruct (phases_head hypot d w evs) as [l Hl].
  pose proof (run_noBack d evs w H) as Hnb. rewrite Hl in *.
  destruct (noBack_counted d l _ Hnb) as [Hr _]. lia.
Qed.

(** X9.  Over any run, from any state, an exercise's buffer count rises by
    exactly the number of counted transitions in its detector's sequence
    of states: rest to active for the detectors that count on entry,
    active to rest for those that count on return. *)
Theorem count_is_transitions (d : CountKey) (w : World) (evs : list Event) :
  get (localCountsRef (run hypot w evs)) d
  = get (localCountsRef w) d + countedTransitions d (phases hypot d w evs).
Proof. apply run_count. Qed.

Lemma run_app (evs1 evs2 : list Event) (w : World) :
  run hypot w (evs1 ++ evs2) = run hypot (run hypot w evs1) evs2.
Proof. unfold run. apply fold_left_app. Qed.

(** X10.  Detection is decoupled from publication: the detector states
    and the buffer after a run depend on the frames only, not on the
    store, the captured counts, the flush clock or the renders in
    between. *)
Theorem refs_depend_on_frames_only (evs : list Event) : forall w1 w2 : World,
  refs w1 = refs w2 ->
  refs (run hypot w1 evs) = refs (run hypot w2 (map Tick (ticks evs))).
Proof.
  induction evs as [|ev evs IH]; intros w1 w2 H; [exact H|].
  change (run hypot w1 (ev :: evs)) with (run hypot (step hypot w1 ev) evs).
  destruct ev as [f|].
  - change (map Tick (ticks (Tick f :: evs))) with (Tick f :: map Tick (ticks evs)).
    change (run hypot w2 (Tick f :: map Tick (ticks evs)))
      with (run hypot (step hypot w2 (Tick f)) (map Tick (ticks evs))).
    apply IH. rewrite !step_refs, H. reflexivity.
  - change (map Tick (ticks (Render :: evs))) with (map Tick (ticks evs)).
    apply IH. rewrite step_refs. exact H.
Qed.



(** X13.  Frames without a pose or with fewer than 17 keypoints leave the
    component exactly as it was: no detector runs and no flush is
    attempted, so counts waiting in the buffer stay unpublished however
    much time passes. *)
Theorem skipped_frames_change_nothing (w : World) (fs : list Frame) :
  forallb skipped fs = true -> run hypot w (map Tick fs) = w.
Proof.
  revert w. induction fs as [|f fs IH]; intros w H; [reflexivity|].
  simpl in H. apply andb_true_iff in H. destruct H as [Hf Hfs].
  change (run hypot w (map Tick (f :: fs)))
    with (run hypot (step hypot w (Tick f)) (map Tick fs)).
  assert (Hstep : step hypot w (Tick f) = w).
  { unfold step, detectAndProcess. unfold skipped in Hf.
    destruct (keypoints f) as [kps|]; [rewrite Hf|]; reflexivity. }
  rewrite Hstep. apply IH. exact Hfs.
Qed.

Lemma run_last_flush (evs : list Event) : forall w,
  800 * Z.of_nat (length (flushTimes hypot w evs))
  <= lastContextFlush (run hypot w evs) - lastContextFlush w.
Proof.
  induction evs as [|ev evs IH]; intros w; [simpl; lia|].
  change (run hypot w (ev :: evs)) with (run hypot (step hypot w ev) evs).
  simpl flushTimes. rewrite length_app, Nat2Z.inj_add.
  specialize (IH (step hypot w ev)).
  destruct (step_flush hypot w ev) as [[Hf Hl]|[Hf Hl]]; rewrite Hf.
  - change (length (@nil Z)) with 0%nat. lia.
  - change (length [lastContextFlush (step hypot w ev)]) with 1%nat. lia.
Qed.

(** X14.  The store is written at a bounded rate: over any run, 800 ms
    times the number of flushes is at most the advance of
    [lastContextFlush], which therefore never moves backwards. *)
Theorem flush_rate_bounded (w : World) (evs : list Event) :
  800 * Z.of_nat (length (flushTimes hypot w evs))
  <= lastContextFlush (run hypot w evs) - lastContextFlush w
  /\ lastContextFlush w <= lastContextFlush (run hypot w evs).
Proof.
  pose proof (run_last_flush evs w). split; [assumption|lia].
Qed.

Lemma last_default_irrel (A : Type) (x : A) (l : list A) (d d' : A) :
  last (x :: l) d = last (x :: l) d'.
Proof.
  revert x. induction l as [|y l IH]; intros x; [reflexivity|].
  change (last (y :: l) d = last (y :: l) d'). apply IH.
Qed.

Lemma last_app_default (A : Type) (l1 l2 : list A) (d : A) :
  last (l1 ++ l2) d = last l2 (last l1 d).
Proof.
  destruct l2 as [|x l2]; [rewrite app_nil_r; reflexivity|].
  rewrite (last_default_irrel A x l2 (last l1 d) d).
  induction l1 as [|a l1 IH]; [reflexivity|].
  simpl app. destruct (l1 ++ x :: l2) as [|b l] eqn:E; [destruct l1; discriminate E|].
  change (last (b :: l) d = last (x :: l2) d). exact IH.
Qed.

(** X15.  The debounce clock of a detector holds the clock reading of the
    frame at which it last counted, or its starting value when it has not
    counted in the run. *)
Theorem lastTime_is_last_event (d : CountKey) (D : Z) (evs : list Event) :
  debounce d = Some D ->
  forall w, lastTime d (stateRef (run hypot w evs))
            = last (eventTimes hypot d w evs) (lastTime d (stateRef w)).
Proof.
  intros HD. induction evs as [|ev evs IH]; intros w; [reflexivity|].
  change (run hypot w (ev :: evs)) with (run hypot (step hypot w ev) evs).
  simpl eventTimes. rewrite last_app_default, IH. f_equal.
  destruct ev as [f|].
  - destruct (step_cases hypot d D w f HD) as [(Hem & Hlt & _)|(Hem & Hlt & _)];
      rewrite Hem, Hlt; reflexivity.
  - rewrite emitted_Render. reflexivity.
Qed.

(** ** A detector's table row, followed through one cycle *)

Lemma blockOf_no_fire (d : CountKey) (f : Frame) (r : Refs) :
  fires hypot d f = false ->
  counted d (active d (fst r)) (active d (fst (blockOf hypot d f r))) = false.
Proof.
  destruct r as [[hl bd pu hj sq jj lu lt] c].
  destruct d; unfold fires, blockOf, counted, earAvg; cbv zeta; simpl emitsOnReturn;
    cbv iota;
    cbv beta delta [handLiftBlock pushUpBlock highJumpBlock
      squatBlock jumpingJackBlock lungeBlock blinkBlock] iota zeta;
    repeat match goal with
    | |- context [match ?o with Some _ => _ | None => _ end] => destruct o
    end;
    intros Hr; rewrite ?Hr; simpl;
    repeat match goal with
    | |- context [UpDown_eqb ?x _] => is_var x; destruct x; simpl
    | |- context [OpenClosed_eqb ?x _] => is_var x; destruct x; simpl
    | |- context [negb ?x] => is_var x; destruct x; simpl
    end;
    rewrite ?andb_false_r, ?andb_true_r; simpl;
    split_ifs; simpl; try reflexivity;
    repeat match goal with
    | x : bool |- _ => destruct x
    end; reflexivity.
Qed.

Ltac debounce_ok :=
  repeat match goal with
  | |- context [Z.gtb ?a ?b] =>
    replace (Z.gtb a b) with true by (symmetry; apply Z.gtb_lt; simpl in *; lia)
  end.

Lemma blockOf_enter (d : CountKey) (f : Frame) (r : Refs) :
  active d (fst r) = false ->
  enters hypot d f = true ->
  debounced d (now f) (lastTime d (fst r)) ->
  active d (fst (blockOf hypot d f r)) = true.
Proof.
  destruct r as [[hl bd pu hj sq jj lu lt] c].
  destruct d; unfold enters, rearms, fires, blockOf, debounced, earAvg; cbv zeta;
    simpl emitsOnReturn; simpl debounce; cbv iota;
    cbv beta delta [handLiftBlock pushUpBlock highJumpBlock
      squatBlock jumpingJackBlock lungeBlock blinkBlock] iota zeta;
    simpl active; simpl lastTime;
    repeat match goal with
    | |- context [match ?o with Some _ => _ | None => _ end] => destruct o
    end;
    intros Ha He Hd; try discriminate He; rewrite He;
    repeat match goal with
    | x : UpDown |- _ => destruct x
    | x : OpenClosed |- _ => destruct x
    end; try discriminate Ha; simpl in Ha; try (rewrite Ha);
    simpl UpDown_eqb; simpl OpenClosed_eqb; simpl negb; simpl andb;
    debounce_ok; reflexivity.
Qed.

Lemma blockOf_return (d : CountKey) (f : Frame) (r : Refs) :
  active d (fst r) = true ->
  returns hypot d f = true ->
  active d (fst (blockOf hypot d f r)) = false.
Proof.
  destruct r as [[hl bd pu hj sq jj lu lt] c].
  destruct d; unfold returns, rearms, fires, blockOf, earAvg; cbv zeta;
    simpl emitsOnReturn; cbv iota;
    cbv beta delta [handLiftBlock pushUpBlock highJumpBlock
      squatBlock jumpingJackBlock lungeBlock blinkBlock] iota zeta;
    simpl active;
    repeat match goal with
    | |- context [match ?o with Some _ => _ | None => _ end] => destruct o
    end;
    intros Ha He; try discriminate He; rewrite He;
    repeat match goal with
    | x : UpDown |- _ => destruct x
    | x : OpenClosed |- _ => destruct x
    end; try discriminate Ha; simpl in Ha; try (rewrite Ha);
    simpl UpDown_eqb; simpl OpenClosed_eqb; simpl negb;
    rewrite ?andb_false_r, ?andb_true_r; simpl; reflexivity.
Qed.

Lemma step_active (d : CountKey) (w : World) (f : Frame) :
  skipped f = false ->
  active d (stateRef (step hypot w (Tick f)))
  = active d (fst (blockOf hypot d f (refs w))).
Proof.
  intros Hskip. pose proof (step_refs w (Tick f)) as H.
  set (w' := step hypot w (Tick f)) in *. cbv iota in H. rewrite Hskip in H.
  pose proof (detectors_view_block d f (refs w)) as Hv. rewrite <- H in Hv.
  unfold view in Hv. injection Hv as H1 _ _. exact H1.
Qed.

Lemma step_no_fire (d : CountKey) (w : World) (f : Frame) :
  fires hypot d f = false ->
  counted d (active d (stateRef w)) (active d (stateRef (step hypot w (Tick f)))) = false.
Proof.
  intros Hr. destruct (skipped f) eqn:Hskip.
  - pose proof (step_refs w (Tick f)) as H.
    set (w' := step hypot w (Tick f)) in *. cbv iota in H. rewrite Hskip in H.
    unfold refs in H. injection H as Hs _. rewrite Hs. apply counted_same.
  - rewrite (step_active d w f Hskip). exact (blockOf_no_fire d f (refs w) Hr).
Qed.

(** Without a change of count, the debounce clock does not move. *)
Lemma step_clock (d : CountKey) (w : World) (ev : Event) :
  get (localCountsRef (step hypot w ev)) d = get (localCountsRef w) d ->
  lastTime d (stateRef (step hypot w ev)) = lastTime d (stateRef w).
Proof.
  intros Hc. pose proof (step_detStep hypot d w ev) as H.
  set (w' := step hypot w ev) in *. destruct ev as [f|].
  - unfold view, refs, detStep in H.
    cbv beta iota delta [fst snd] in H.
    destruct (emitsOnReturn d); destruct H as [H|[H|H]]; decompose [and] H; clear H;
      try assumption; lia.
  - reflexivity.
Qed.

Lemma step_rest (d : CountKey) (w : World) (ev : Event) :
  active d (stateRef w) = false ->
  (forall f, ev = Tick f -> enters hypot d f = false) ->
  active d (stateRef (step hypot w ev)) = false
  /\ get (localCountsRef (step hypot w ev)) d = get (localCountsRef w) d
  /\ lastTime d (stateRef (step hypot w ev)) = lastTime d (stateRef w).
Proof.
  intros Ha He.
  assert (H : active d (stateRef (step hypot w ev)) = false).
  { destruct ev as [f|]; [|exact Ha].
    specialize (He f eq_refl). unfold enters in He.
    destruct (emitsOnReturn d) eqn:Ek.
    - pose proof (step_no_rearm d w f He) as Hn.
      set (w' := step hypot w (Tick f)) in *.
      unfold counted in Hn. rewrite Ek, Ha in Hn.
      rewrite andb_true_r in Hn. exact Hn.
    - pose proof (step_no_fire d w f He) as Hn.
      set (w' := step hypot w (Tick f)) in *.
      unfold counted in Hn. rewrite Ek, Ha in Hn. exact Hn. }
  assert (H2 : get (localCountsRef (step hypot w ev)) d = get (localCountsRef w) d).
  { rewrite (step_count hypot d w ev), H, Ha, counted_same. lia. }
  split; [exact H|]. split; [exact H2|].
  apply step_clock. exact H2.
Qed.

Lemma step_held (d : CountKey) (w : World) (ev : Event) :
  active d (stateRef w) = true ->
  (forall f, ev = Tick f -> returns hypot d f = false) ->
  active d (stateRef (step hypot w ev)) = true
  /\ get (localCountsRef (step hypot w ev)) d = get (localCountsRef w) d.
Proof.
  intros Ha He.
  assert (H : active d (stateRef (step hypot w ev)) = true).
  { destruct ev as [f|]; [|exact Ha].
    specialize (He f eq_refl). unfold returns in He.
    destruct (emitsOnReturn d) eqn:Ek.
    - pose proof (step_no_fire d w f He) as Hn.
      set (w' := step hypot w (Tick f)) in *.
      unfold counted in Hn. rewrite Ek, Ha in Hn.
      apply negb_false_iff in Hn. exact Hn.
    - pose proof (step_no_rearm d w f He) as Hn.
      set (w' := step hypot w (Tick f)) in *.
      unfold counted in Hn. rewrite Ek, Ha in Hn.
      rewrite andb_true_r in Hn. apply negb_false_iff in Hn. exact Hn. }
  split; [exact H|].
  rewrite (step_count hypot d w ev), H, Ha, counted_same. lia.
Qed.

Lemma ticks_cons_in (ev : Event) (evs : list Event) (f : Frame) :
  In f (ticks evs) -> In f (ticks (ev :: evs)).
Proof.
  intros H. unfold ticks. simpl flat_map. apply in_or_app. right. exact H.
Qed.

Lemma run_rest (d : CountKey) (evs : list Event) : forall w,
  active d (stateRef w) = false ->
  (forall f, In f (ticks evs) -> enters hypot d f = false) ->
  active d (stateRef (run hypot w evs)) = false
  /\ get (localCountsRef (run hypot w evs)) d = get (localCountsRef w) d
  /\ lastTime d (stateRef (run hypot w evs)) = lastTime d (stateRef w).
Proof.
  induction evs as [|ev evs IH]; intros w Ha He; [auto|].
  change (run hypot w (ev :: evs)) with (run hypot (step hypot w ev) evs).
  destruct (step_rest d w ev Ha) as (H1 & H2 & H3).
  { intros f ->. apply He. left. reflexivity. }
  destruct (IH (step hypot w ev) H1) as (G1 & G2 & G3).
  { intros f Hf. apply He. apply ticks_cons_in. exact Hf. }
  rewrite G2, G3, H2, H3. auto.
Qed.

Lemma run_held (d : CountKey) (evs : list Event) : forall w,
  active d (stateRef w) = true ->
  (forall f, In f (ticks evs) -> returns hypot d f = false) ->
  active d (stateRef (run hypot w evs)) = true
  /\ get (localCountsRef (run hypot w evs)) d = get (localCountsRef w) d.
Proof.
  induction evs as [|ev evs IH]; intros w Ha He; [auto|].
  change (run hypot w (ev :: evs)) with (run hypot (step hypot w ev) evs).
  destruct (step_held d w ev Ha) as (H1 & H2).
  { intros f ->. apply He. left. reflexivity. }
  destruct (IH (step hypot w ev) H1) as (G1 & G2).
  { intros f Hf. apply He. apply ticks_cons_in. exact Hf. }
  rewrite G2, H2. auto.
Qed.

Lemma step_enter (d : CountKey) (w : World) (f : Frame) :
  active d (stateRef w) = false ->
  skipped f = false -> enters hypot d f = true ->
  debounced d (now f) (lastTime d (stateRef w)) ->
  active d (stateRef (step hypot w (Tick f))) = true
  /\ get (localCountsRef (step hypot w (Tick f))) d
     = get (localCountsRef w) d + (if emitsOnReturn d then 0 else 1).
Proof.
  intros Ha Hskip He Hd.
  assert (H : active d (stateRef (step hypot w (Tick f))) = true).
  { rewrite (step_active d w f Hskip). apply blockOf_enter; assumption. }
  split; [exact H|]. rewrite (step_count hypot d w (Tick f)), H, Ha.
  unfold counted. destruct (emitsOnReturn d); reflexivity.
Qed.

Lemma step_return (d : CountKey) (w : World) (f : Frame) :
  active d (stateRef w) = true ->
  skipped f = false -> returns hypot d f = true ->
  active d (stateRef (step hypot w (Tick f))) = false
  /\ get (localCountsRef (step hypot w (Tick f))) d
     = get (localCountsRef w) d + (if emitsOnReturn d then 1 else 0).
Proof.
  intros Ha Hskip He.
  assert (H : active d (stateRef (step hypot w (Tick f))) = false).
  { rewrite (step_active d w f Hskip). apply blockOf_return; assumption. }
  split; [exact H|]. rewrite (step_count hypot d w (Tick f)), H, Ha.
  unfold counted. destruct (emitsOnReturn d); reflexivity.
Qed.

(** One cycle of the row of [d], from rest, counts once and ends at rest. *)
Lemma row_cycle (d : CountKey) (w : World)
    (pre : list Event) (fe : Frame) (hold : list Event) (fr : Frame)
    (post : list Event) :
  active d (stateRef w) = false ->
  rowCycle hypot d (lastTime d (stateRef w)) pre fe hold fr post ->
  get (localCountsRef (run hypot w (pre ++ Tick fe :: hold ++ Tick fr :: post))) d
  = get (localCountsRef w) d + 1
  /\ active d (stateRef (run hypot w (pre ++ Tick fe :: hold ++ Tick fr :: post))) = false.
Proof.
  intros Ha (Hpre & Hse & He & Hd & Hhold & Hsr & Hr & Hpost).
  rewrite run_app.
  destruct (run_rest d pre w Ha Hpre) as (A1 & A2 & A3).
  set (w1 := run hypot w pre) in *.
  change (run hypot w1 (Tick fe :: hold ++ Tick fr :: post))
    with (run hypot (step hypot w1 (Tick fe)) (hold ++ Tick fr :: post)).
  rewrite <- A3 in Hd.
  destruct (step_enter d w1 fe A1 Hse He Hd) as (B1 & B2).
  set (w2 := step hypot w1 (Tick fe)) in *.
  rewrite run_app.
  destruct (run_held d hold w2 B1 Hhold) as (G1 & G2).
  set (w3 := run hypot w2 hold) in *.
  change (run hypot w3 (Tick fr :: post)) with (run hypot (step hypot w3 (Tick fr)) post).
  destruct (step_return d w3 fr G1 Hsr Hr) as (D1 & D2).
  set (w4 := step hypot w3 (Tick fr)) in *.
  destruct (run_rest d post w4 D1 Hpost) as (E1 & E2 & _).
  split; [|exact E1].
  rewrite E2, D2, G2, B2, A2. destruct (emitsOnReturn d); lia.
Qed.

Lemma run_no_fire (k : CountKey) (evs : list Event) : forall w,
  (forall f, In f (ticks evs) -> fires hypot k f = false) ->
  get (localCountsRef (run hypot w evs)) k = get (localCountsRef w) k.
Proof.
  induction evs as [|ev evs IH]; intros w H; [reflexivity|].
  change (run hypot w (ev :: evs)) with (run hypot (step hypot w ev) evs).
  rewrite IH by (intros f Hf; apply H; apply ticks_cons_in; exact Hf).
  rewrite (step_count hypot k w ev). destruct ev as [f|].
  - rewrite (step_no_fire k w f) by (apply H; left; reflexivity). lia.
  - simpl. rewrite counted_same. lia.
Qed.

(** C1 (as amended).  For every sequence of events that follows one
    detector's table row through one cycle from rest (frames under which
    it does not enter; a processed frame that meets the row's "enter
    active" condition, with the frame's clock more than the debounce
    interval past the detector's last count; frames under which it does
    not return; a processed frame that meets the row's "return to rest"
    condition; frames under which it does not enter again), that
    exercise's buffer count goes up by exactly 1 and the detector is at
    rest again; and the count of every other exercise is unchanged
    provided no frame of the sequence passes the counting test of that
    other exercise's detector. *)
Theorem row_cycle_counts_once (d : CountKey) (w : World)
    (pre : list Event) (fe : Frame) (hold : list Event) (fr : Frame)
    (post : list Event) :
  active d (stateRef w) = false ->
  rowCycle hypot d (lastTime d (stateRef w)) pre fe hold fr post ->
  let evs := pre ++ Tick fe :: hold ++ Tick fr :: post in
  get (localCountsRef (run hypot w evs)) d = get (localCountsRef w) d + 1
  /\ active d (stateRef (run hypot w evs)) = false
  /\ forall k, k <> d ->
       (forall f, In f (ticks evs) -> fires hypot k f = false) ->
       get (localCountsRef (run hypot w evs)) k = get (localCountsRef w) k.
Proof.
  intros Ha Hrow evs.
  destruct (row_cycle d w pre fe hold fr post Ha Hrow) as [H1 H2].
  split; [exact H1|]. split; [exact H2|].
  intros k _ Hk. apply run_no_fire. exact Hk.
Qed.

End EngineMoreProofs.

(** X16.  [updateCount]: the written key reads back the written value,
    every other key is untouched, a second write to the same key wins,
    and writes to different keys commute. *)
Theorem updateCount_laws (prev : Counts) (k k' : CountKey) (v v' : Z) :
  get (updateCount k v prev) k = v
  /\ (k' <> k -> get (updateCount k v prev) k' = get prev k')
  /\ updateCount k v' (updateCount k v prev) = updateCount k v' prev
  /\ (k' <> k -> updateCount k' v' (updateCount k v prev)
                 = updateCount k v (updateCount k' v' prev)).
Proof.
  unfold updateCount. split; [apply get_set_same|].
  split; [apply get_set_other|]. split.
  - destruct k; reflexivity.
  - destruct k, k'; intros H; try reflexivity; contradiction H; reflexivity.
Qed.

Section RemountProofs.

Variable hypot : float -> float -> float.



Lemma step_undue (w : World) (f : Frame) :
  flushNow f - lastContextFlush w < 800 ->
  providerCounts (step hypot w (Tick f)) = providerCounts w
  /\ lastContextFlush (step hypot w (Tick f)) = lastContextFlush w
  /\ flushed hypot w (Tick f) = false.
Proof.
  intros H. unfold flushed.
  assert (Hgoal : providerCounts (step hypot w (Tick f)) = providerCounts w
                  /\ lastContextFlush (step hypot w (Tick f)) = lastContextFlush w).
  { unfold step, detectAndProcess.
    destruct (keypoints f) as [kps|]; [|auto].
    destruct (length kps <? 17)%nat; [auto|].
    destruct (detectors hypot f (stateRef w, localCountsRef w)) as [s c].
    unfold flushCountsToContext. simpl lastContextFlush.
    replace (flushNow f - lastContextFlush w <? 800) with true
      by (symmetry; apply Z.ltb_lt; exact H).
    auto. }
  destruct Hgoal as [H1 H2]. rewrite H2, Z.eqb_refl. auto.
Qed.

(** X21.  Nothing is published before the interval has passed: over any
    run whose flush clocks are all less than 800 ms past
    [lastContextFlush] (for instance the first 800 ms after mounting),
    the store and [lastContextFlush] stay as they were and no flush
    happens, whatever was counted into the buffer. *)
Theorem no_flush_before_interval (evs : list Event) : forall w : World,
  (forall f, In f (ticks evs) -> flushNow f - lastContextFlush w < 800) ->
  providerCounts (run hypot w evs) = providerCounts w
  /\ lastContextFlush (run hypot w evs) = lastContextFlush w
  /\ flushTimes hypot w evs = [].
Proof.
  induction evs as [|ev evs IH]; intros w H; [auto|].
  change (run hypot w (ev :: evs)) with (run hypot (step hypot w ev) evs).
  simpl flushTimes.
  assert (Hstep : providerCounts (step hypot w ev) = providerCounts w
                  /\ lastContextFlush (step hypot w ev) = lastContextFlush w
                  /\ flushed hypot w ev = false).
  { destruct ev as [f|].
    - apply step_undue. apply H. left. reflexivity.
    - unfold flushed. simpl. rewrite Z.eqb_refl. auto. }
  destruct Hstep as (Hp & Hl & Hf).
  destruct (IH (step hypot w ev)) as (Gp & Gl & Gf).
  { intros f Hin. rewrite Hl. apply H. unfold ticks. simpl flat_map.
    apply in_or_app. right. exact Hin. }
  rewrite Gp, Gl, Gf, Hp, Hl, Hf. auto.
Qed.

Lemma step_lift (w : World) (f : Frame) :
  skipped f = false -> lifts f = true -> handLifted (stateRef w) = false ->
  handLifted (stateRef (step hypot w (Tick f))) = true
  /\ get (localCountsRef (step hypot w (Tick f))) handLifts
     = get (localCountsRef w) handLifts + 1.
Proof.
  intros Hskip Hl Hs. pose proof (step_refs hypot w (Tick f)) as Hr.
  cbv iota in Hr. rewrite Hskip in Hr.
  set (w' := step hypot w (Tick f)) in *. unfold lifts in Hl.
  destruct (getKeypointByName (keypoints f) left_wrist _ _) as [lw|] eqn:Hlw;
    [|discriminate Hl].
  destruct (getKeypointByName (keypoints f) left_shoulder _ _) as [ls|] eqn:Hls;
    [|discriminate Hl].
  destruct (handLift_transitions hypot f (stateRef w) (localCountsRef w) lw ls Hlw Hls)
    as (Ha & _ & _).
  fold (refs w) in Ha. rewrite <- Hr in Ha. exact (Ha Hs Hl).
Qed.

Lemma step_lower (w : World) (f : Frame) :
  skipped f = false -> rearms hypot handLifts f = true ->
  handLifted (stateRef (step hypot w (Tick f))) = false
  /\ get (localCountsRef (step hypot w (Tick f))) handLifts
     = get (localCountsRef w) handLifts.
Proof.
  intros Hskip Hl. pose proof (step_refs hypot w (Tick f)) as Hr.
  cbv iota in Hr. rewrite Hskip in Hr.
  set (w' := step hypot w (Tick f)) in *. unfold rearms in Hl. cbv zeta in Hl.
  destruct (getKeypointByName (keypoints f) left_wrist _ _) as [lw|] eqn:Hlw;
    [|discriminate Hl].
  destruct (getKeypointByName (keypoints f) left_shoulder _ _) as [ls|] eqn:Hls;
    [|discriminate Hl].
  destruct (handLift_transitions hypot f (stateRef w) (localCountsRef w) lw ls Hlw Hls)
    as (_ & _ & Hc).
  fold (refs w) in Hc. rewrite <- Hr in Hc. exact (Hc Hl).
Qed.

(** X22.  Hand lifts have no debounce: starting at rest, a run of [n]
    lift-then-lower frame pairs, however close in time, raises the
    hand-lift count by exactly [n] and ends at rest. *)
Theorem every_hand_lift_counts (pairs : list (Frame * Frame)) : forall w : World,
  handLifted (stateRef w) = false ->
  (forall p, In p pairs ->
     skipped (fst p) = false /\ lifts (fst p) = true
     /\ skipped (snd p) = false /\ rearms hypot handLifts (snd p) = true) ->
  get (localCountsRef (run hypot w (pairEvents pairs))) handLifts
  = get (localCountsRef w) handLifts + Z.of_nat (length pairs)
  /\ handLifted (stateRef (run hypot w (pairEvents pairs))) = false.
Proof.
  induction pairs as [|[fu fd] pairs IH]; intros w Hs H; [simpl; split; [lia|exact Hs]|].
  change (run hypot w (pairEvents ((fu, fd) :: pairs)))
    with (run hypot (step hypot (step hypot w (Tick fu)) (Tick fd)) (pairEvents pairs)).
  destruct (H (fu, fd) (or_introl eq_refl)) as (Hsu & Hu & Hsd & Hd). simpl in Hsu, Hu, Hsd, Hd.
  destruct (step_lift w fu Hsu Hu Hs) as [_ Hc1].
  destruct (step_lower (step hypot w (Tick fu)) fd Hsd Hd) as [Hs2 Hc2].
  destruct (IH (step hypot (step hypot w (Tick fu)) (Tick fd)) Hs2) as [Hc Hend].
  { intros p Hp. apply H. right. exact Hp. }
  split; [|exact Hend].
  rewrite Hc, Hc2, Hc1, length_cons, Nat2Z.inj_succ. lia.
Qed.

(** ** What can act on the component and the store *)



End RemountProofs.

(** * The unbuffered component: proofs *)

Module UnbufferedProofs.

Import Unbuffered.

Lemma is_nan_falsy (a : float) : JS.isNaN a = true -> falsy a = true.
Proof. unfold falsy, JS.isNaN. intros H. rewrite H. apply orb_true_r. Qed.

(** X18.  [getKeypoint] looks at the first keypoint carrying the name
    and returns null exactly when there is none, or its x or y is falsy
    (zero or NaN, so a point on the left or top edge is dropped), or its
    score is [null] or a number below 0.2 (an absent score is accepted);
    otherwise it returns that keypoint with x multiplied by 640 and y by
    480. *)
Theorem getKeypoint_spec (keypoints : list NamedKeypoint) (name : String.string) :
  (getKeypoint keypoints name = None
   <-> match find (nameIs name) keypoints with
       | None => True
       | Some k =>
         falsy (nk_x k) = true \/ falsy (nk_y k) = true
         \/ nk_score k = ScoreNull
         \/ exists sc, nk_score k = ScoreNumber sc /\ (sc <? 0.2)%float = true
       end)
  /\ (forall k, find (nameIs name) keypoints = Some k ->
        falsy (nk_x k) = false -> falsy (nk_y k) = false ->
        (nk_score k = ScoreUndefined
         \/ exists sc, nk_score k = ScoreNumber sc /\ (sc <? 0.2)%float = false) ->
        getKeypoint keypoints name
        = Some (mkNamed (kp_name k) (nk_x k * 640)%float (nk_y k * 480)%float
                  (nk_score k))).
Proof.
  assert (Hbelow : forall k, scoreBelow k = true
            <-> nk_score k = ScoreNull
                \/ exists sc, nk_score k = ScoreNumber sc /\ (sc <? 0.2)%float = true).
  { intros k. unfold scoreBelow. destruct (nk_score k) as [| |sc]; split.
    - discriminate.
    - intros [H|[sc [H _]]]; discriminate H.
    - intros _. left. reflexivity.
    - reflexivity.
    - intros H. right. exists sc. auto.
    - intros [H|[sc' [H1 H2]]]; [discriminate H|]. injection H1 as <-. exact H2. }
  unfold getKeypoint.
  destruct (find (nameIs name) keypoints) as [k|]; cbv zeta.
  2:{ split; [tauto|]. intros k H. discriminate H. }
  split.
  - split.
    + intros H.
      destruct (falsy (nk_x k)) eqn:Ex; [left; reflexivity|].
      destruct (falsy (nk_y k)) eqn:Ey; [right; left; reflexivity|].
      destruct (JS.isNaN (nk_x k)) eqn:Nx;
        [rewrite (is_nan_falsy _ Nx) in Ex; discriminate Ex|].
      destruct (JS.isNaN (nk_y k)) eqn:Ny;
        [rewrite (is_nan_falsy _ Ny) in Ey; discriminate Ey|].
      destruct (scoreBelow k) eqn:Es; [|discriminate H].
      right. right. apply Hbelow. exact Es.
    + intros [H|[H|H]]; [rewrite H|rewrite H|apply Hbelow in H; rewrite H];
        rewrite ?orb_true_r; reflexivity.
  - intros k' Hk Hx Hy Hs. injection Hk as <-. rewrite Hx, Hy.
    destruct (JS.isNaN (nk_x k)) eqn:Nx;
      [rewrite (is_nan_falsy _ Nx) in Hx; discriminate Hx|].
    destruct (JS.isNaN (nk_y k)) eqn:Ny;
      [rewrite (is_nan_falsy _ Ny) in Hy; discriminate Hy|].
    assert (Es : scoreBelow k = false).
    { unfold scoreBelow. destruct Hs as [H|[sc [H1 H2]]]; rewrite ?H, ?H1; auto. }
    rewrite Es. reflexivity.
Qed.

Lemma Touched_refl counts store : Touched counts store store.
Proof. intros k. left. reflexivity. Qed.

Lemma Touched_trans counts a b c :
  Touched counts a b -> Touched counts b c -> Touched counts a c.
Proof.
  intros H1 H2 k. destruct (H2 k) as [E|E]; rewrite E; [apply H1|right; reflexivity].
Qed.

Lemma Touched_update counts store k :
  Touched counts store (updateCount k (get counts k + 1) store).
Proof.
  intros k'. unfold updateCount. destruct (CountKey_eq_dec k' k) as [->|Hne].
  - right. apply get_set_same.
  - left. apply get_set_other. exact Hne.
Qed.

Ltac touched_block :=
  intros [s store];
  cbv beta delta [Unbuffered.handLiftBlock Unbuffered.pushUpBlock
    Unbuffered.highJumpBlock Unbuffered.squatBlock Unbuffered.jumpingJackBlock
    Unbuffered.lungeBlock Unbuffered.blinkBlock] iota zeta;
  repeat match goal with
  | |- context [match ?o with Some _ => _ | None => _ end] => destruct o
  end;
  split_ifs; cbv beta iota delta [snd]; first [apply Touched_refl | apply Touched_update].

Lemma handLiftBlock_touched counts lw ls : forall r,
  Touched counts (snd r) (snd (Unbuffered.handLiftBlock counts lw ls r)).
Proof. touched_block. Qed.

Lemma pushUpBlock_touched counts rs t : forall r,
  Touched counts (snd r) (snd (Unbuffered.pushUpBlock counts rs t r)).
Proof. touched_block. Qed.

Lemma highJumpBlock_touched counts la ra t : forall r,
  Touched counts (snd r) (snd (Unbuffered.highJumpBlock counts la ra t r)).
Proof. touched_block. Qed.

Lemma squatBlock_touched counts lk lh t : forall r,
  Touched counts (snd r) (snd (Unbuffered.squatBlock counts lk lh t r)).
Proof. touched_block. Qed.

Lemma jumpingJackBlock_touched counts lw rw la ra t : forall r,
  Touched counts (snd r) (snd (Unbuffered.jumpingJackBlock counts lw rw la ra t r)).
Proof. touched_block. Qed.

Lemma lungeBlock_touched counts rk rh t : forall r,
  Touched counts (snd r) (snd (Unbuffered.lungeBlock counts rk rh t r)).
Proof. touched_block. Qed.

Section Host.

Variable hypot : float -> float -> float.

Lemma blinkBlock_touched counts le re no t : forall r,
  Touched counts (snd r) (snd (Unbuffered.blinkBlock hypot counts le re no t r)).
Proof. touched_block. Qed.

Lemma detectPose_touched counts sh r :
  Touched counts (snd r) (snd (detectPose hypot counts sh r)).
Proof.
  unfold detectPose. destruct (poses sh) as [|keypoints ps]; [apply Touched_refl|].
  cbv zeta.
  eapply Touched_trans; [|apply lungeBlock_touched].
  eapply Touched_trans; [|apply jumpingJackBlock_touched].
  eapply Touched_trans; [|apply squatBlock_touched].
  eapply Touched_trans; [|apply highJumpBlock_touched].
  eapply Touched_trans; [|apply pushUpBlock_touched].
  eapply Touched_trans; [|apply blinkBlock_touched].
  apply handLiftBlock_touched.
Qed.

(** X19.  The unbuffered component does not accumulate: every count it
    publishes is the captured count plus one, so after any number of
    calls of one interval each store entry is what it was before or the
    captured count plus one; with the captured counts at 0 (the provider's
    initial state) no published count ever exceeds 1 by this component's
    doing. *)
Theorem unbuffered_counts_do_not_accumulate (counts : Counts) (shots : list Shot) :
  forall r : Cells,
    Touched counts (snd r) (snd (detectAll hypot counts shots r))
    /\ ((forall k, get counts k = 0) ->
        forall k, get (snd (detectAll hypot counts shots r)) k = get (snd r) k
                  \/ get (snd (detectAll hypot counts shots r)) k = 1).
Proof.
  assert (H : forall r, Touched counts (snd r) (snd (detectAll hypot counts shots r))).
  { induction shots as [|sh shots IH]; intros r; [apply Touched_refl|].
    change (detectAll hypot counts (sh :: shots) r)
      with (detectAll hypot counts shots (detectPose hypot counts sh r)).
    eapply Touched_trans; [apply detectPose_touched|apply IH]. }
  intros r. split; [apply H|].
  intros Hz k. destruct (H r k) as [E|E]; [left; exact E|right].
  rewrite E, Hz. reflexivity.
Qed.

End Host.

End UnbufferedProofs.

(** * The step counter: proofs *)

Module StepCounterProofs.

Import StepCounter.

Lemma handleMotion_steps st acc :
  steps st <= steps (handleMotion st acc) <= steps st + 1.
Proof.
  unfold handleMotion. simpl steps. destruct (_ >? _)%float; lia.
Qed.

(** X20.  The step counter never goes down and never counts more than
    one step per motion event: after [n] events it lies between its
    starting value and that value plus [n]; and after a non-empty run
    [lastAcc] is the magnitude of the last reading alone. *)
Theorem steps_bounded (accs : list Acceleration) : forall st : State,
  steps st <= steps (motions st accs) <= steps st + Z.of_nat (length accs)
  /\ lastAcc (motions st accs) = last (map totalAcc accs) (lastAcc st).
Proof.
  induction accs as [|acc accs IH]; intros st; [simpl; split; [lia|reflexivity]|].
  change (motions st (acc :: accs)) with (motions (handleMotion st acc) accs).
  destruct (IH (handleMotion st acc)) as [Hs Hl].
  pose proof (handleMotion_steps st acc) as Hone.
  split.
  - rewrite length_cons, Nat2Z.inj_succ. lia.
  - rewrite Hl. simpl map. destruct (map totalAcc accs) as [|x l]; [reflexivity|].
    change (last (totalAcc acc :: x :: l) (lastAcc st)) with (last (x :: l) (lastAcc st)).
    apply last_default_irrel.
Qed.

End StepCounterProofs.

(** * The further properties on concrete frames *)

(** A hand going up at rest is counted. *)
Lemma handLift_transitions_witness :
  let r := detectors jsHypot handUp (initialStateRef, defaultLocalCounts) in
  handLifted (fst r) = true /\ get (snd r) handLifts = 0 + 1.
Proof.
  apply (proj1 (handLift_transitions jsHypot handUp initialStateRef defaultLocalCounts
           (mkKeypoint 320 120 (Some 0.9%float)) (mkKeypoint 320 240 (Some 0.9%float))
           eq_refl eq_refl));
    reflexivity.
Defined.

(** Eyes near the nose, one second after the epoch: a blink is counted. *)
Lemma blink_transitions_witness :
  let r := detectors jsHypot eyesNear (initialStateRef, defaultLocalCounts) in
  blinkDetected (fst r) = true /\ get (snd r) eyeBlinks = 0 + 1
  /\ blink (lastTimes (fst r)) = 1000.
Proof.
  apply (proj1 (blink_transitions jsHypot eyesNear initialStateRef defaultLocalCounts
           (mkKeypoint 320 240 (Some 0.9%float))
           (mkKeypoint (0.55 * 640) 240 (Some 0.9%float))
           (mkKeypoint (0.52 * 640) (0.55 * 480) (Some 0.9%float))
           eq_refl eq_refl eq_refl));
    [reflexivity|reflexivity|simpl; lia].
Defined.

(** Ankles high in the frame: a high jump is counted. *)
Lemma highJump_transitions_witness :
  let r := detectors jsHypot jackOpen (initialStateRef, defaultLocalCounts) in
  highJumpState (fst r) = up /\ get (snd r) highJumps = 0 + 1
  /\ highJump (lastTimes (fst r)) = 1000.
Proof.
  apply (proj1 (highJump_transitions jsHypot jackOpen initialStateRef defaultLocalCounts
           (mkKeypoint 128 48 (Some 0.9%float)) (mkKeypoint 512 48 (Some 0.9%float))
           eq_refl eq_refl));
    [reflexivity|reflexivity|simpl; lia].
Defined.

(** Knee below the hip: the squat detector goes down, nothing counted. *)
Lemma squat_transitions_witness :
  let r := detectors jsHypot kneeLow (initialStateRef, defaultLocalCounts) in
  squatState (fst r) = down /\ get (snd r) squats = 0
  /\ squat (lastTimes (fst r)) = 0.
Proof.
  apply (proj1 (squat_transitions jsHypot kneeLow initialStateRef defaultLocalCounts
           (mkKeypoint 320 288 (Some 0.9%float)) (mkKeypoint 320 192 (Some 0.9%float))
           eq_refl eq_refl));
    [reflexivity|reflexivity|simpl; lia].
Defined.

(** Arms and legs spread: a jumping jack is counted. *)
Lemma jumpingJack_transitions_witness :
  let r := detectors jsHypot jackOpen (initialStateRef, defaultLocalCounts) in
  jumpingJackState (fst r) = open /\ get (snd r) jumpingJacks = 0 + 1
  /\ jumpingJack (lastTimes (fst r)) = 1000.
Proof.
  apply (proj1 (jumpingJack_transitions jsHypot jackOpen initialStateRef defaultLocalCounts
           (mkKeypoint 64 240 (Some 0.9%float)) (mkKeypoint 576 240 (Some 0.9%float))
           (mkKeypoint 128 48 (Some 0.9%float)) (mkKeypoint 512 48 (Some 0.9%float))
           eq_refl eq_refl eq_refl eq_refl));
    [reflexivity|reflexivity|reflexivity|simpl; lia].
Defined.

(** Knee forward and low: the lunge detector goes down, nothing counted. *)
Lemma lunge_transitions_witness :
  let r := detectors jsHypot lungeDeep (initialStateRef, defaultLocalCounts) in
  lungeState (fst r) = down /\ get (snd r) lunges = 0
  /\ lunge (lastTimes (fst r)) = 0.
Proof.
  apply (proj1 (lunge_transitions jsHypot lungeDeep initialStateRef defaultLocalCounts
           (mkKeypoint 384 336 (Some 0.9%float)) (mkKeypoint 320 192 (Some 0.9%float))
           eq_refl eq_refl));
    [reflexivity|reflexivity|reflexivity|simpl; lia].
Defined.

(** A hand held up over three frames is counted at most once. *)
Lemma held_pose_counts_once_witness :
  let evs := [Tick handUp; Tick handUp; Tick handUp] in
  get (localCountsRef (mount 0)) handLifts
    <= get (localCountsRef (run jsHypot (mount 0) evs)) handLifts
  /\ get (localCountsRef (run jsHypot (mount 0) evs)) handLifts
     <= get (localCountsRef (mount 0)) handLifts + 1.
Proof.
  apply (held_pose_counts_once jsHypot handLifts (mount 0)
           [Tick handUp; Tick handUp; Tick handUp]).
  simpl. intros f [<-|[<-|[<-|[]]]]; reflexivity.
Defined.

(** Two components mounted at different times see the same frames. *)
Lemma refs_depend_on_frames_only_witness :
  let evs := [Tick handUp; Render; Tick handDown] in
  refs (run jsHypot (mount 0) evs) = refs (run jsHypot (mount 5000) (map Tick (ticks evs))).
Proof.
  apply (refs_depend_on_frames_only jsHypot [Tick handUp; Render; Tick handDown]
           (mount 0) (mount 5000)).
  reflexivity.
Defined.


(** No pose, then a pose of two keypoints, after a lift that is still
    unpublished. *)
Lemma skipped_frames_change_nothing_witness :
  let w := run jsHypot (mount 900) [Tick handUp] in
  run jsHypot w (map Tick [noPose; shortPose]) = w.
Proof.
  apply (skipped_frames_change_nothing jsHypot
           (run jsHypot (mount 900) [Tick handUp]) [noPose; shortPose]).
  reflexivity.
Defined.

(** After the oscillation the push-up clock reads the one counted frame. *)
Lemma lastTime_is_last_event_witness :
  lastTime pushUps (stateRef (run jsHypot (mount 0) oscillation))
  = last (eventTimes jsHypot pushUps (mount 0) oscillation)
         (lastTime pushUps (stateRef (mount 0))).
Proof.
  apply (lastTime_is_last_event jsHypot pushUps 400 oscillation eq_refl (mount 0)).
Defined.


(** A lift 100 ms after mounting is counted but not published. *)
Lemma no_flush_before_interval_witness :
  let w := mount 900 in
  get (localCountsRef (run jsHypot w [Tick handUp])) handLifts = 1
  /\ providerCounts (run jsHypot w [Tick handUp]) = providerCounts w
  /\ lastContextFlush (run jsHypot w [Tick handUp]) = lastContextFlush w
  /\ flushTimes jsHypot w [Tick handUp] = [].
Proof.
  split; [reflexivity|].
  apply (no_flush_before_interval jsHypot [Tick handUp] (mount 900)).
  simpl. intros f [<-|[]]. simpl. lia.
Defined.

(** Two lifts, four frames. *)
Lemma every_hand_lift_counts_witness :
  let pairs := [(handUp, handDown); (handUp, handDown)] in
  get (localCountsRef (run jsHypot (mount 0) (pairEvents pairs))) handLifts
  = get (localCountsRef (mount 0)) handLifts + 2
  /\ handLifted (stateRef (run jsHypot (mount 0) (pairEvents pairs))) = false.
Proof.
  apply (every_hand_lift_counts jsHypot [(handUp, handDown); (handUp, handDown)] (mount 0));
    [reflexivity|].
  intros p [<-|[<-|[]]]; repeat split; reflexivity.
Defined.

(** One squat from mounting, a re-render in between: the squat count goes
    from 0 to 1 and the hand-lift count, whose test no frame passes,
    stays 0. *)
Lemma row_cycle_counts_once_witness :
  let evs := [Render] ++ Tick (squatDown 1000) :: [Render] ++ Tick (squatUp 2000) :: [] in
  active squats (stateRef (mount 0)) = false
  /\ rowCycle jsHypot squats (lastTime squats (stateRef (mount 0)))
       [Render] (squatDown 1000) [Render] (squatUp 2000) []
  /\ get (localCountsRef (run jsHypot (mount 0) evs)) squats = 0 + 1
  /\ active squats (stateRef (run jsHypot (mount 0) evs)) = false
  /\ get (localCountsRef (run jsHypot (mount 0) evs)) handLifts = 0.
Proof.
  assert (Hrow : rowCycle jsHypot squats (lastTime squats (stateRef (mount 0)))
                   [Render] (squatDown 1000) [Render] (squatUp 2000) []).
  { unfold rowCycle. repeat split; try reflexivity;
      try (intros f Hf; simpl in Hf; contradiction). }
  destruct (row_cycle_counts_once jsHypot squats (mount 0)
              [Render] (squatDown 1000) [Render] (squatUp 2000) [] eq_refl Hrow)
    as (H1 & H2 & H3).
  split; [reflexivity|]. split; [exact Hrow|]. split; [exact H1|]. split; [exact H2|].
  apply (H3 handLifts); [discriminate|].
  intros f Hf. simpl in Hf. destruct Hf as [<-|[<-|[]]]; reflexivity.
Defined.

(** C5 fails as stated: a hand lift is counted and published, the user
    leaves the page and comes back; the state reached shows 1 in the store
    while the buffer holds 0. *)
Lemma published_value_ahead_after_remount :
  exists acts i s,
    nth_error (sessionTrace jsHypot (start 0) acts) i = Some s
    /\ get (localCountsRef (fst s)) handLifts < get (providerCounts (fst s)) handLifts.
Proof.
  exists [Act (Tick handUp); Remount 5000], 2%nat,
         (nth 2 (sessionTrace jsHypot (start 0) [Act (Tick handUp); Remount 5000]) (start 0)).
  split; [reflexivity|]. vm_compute. reflexivity.
Qed.

(** C10 fails as stated: store at most buffer is not an invariant of the
    states the program reaches, a remount breaks it. *)
Lemma store_exceeds_buffer_after_remount :
  ~ (forall acts s k, In s (sessionTrace jsHypot (start 0) acts) ->
       get (providerCounts (fst s)) k <= get (localCountsRef (fst s)) k).
Proof.
  intros H.
  specialize (H [Act (Tick handUp); Remount 5000]
                (act jsHypot (act jsHypot (mount 0) (Act (Tick handUp))) (Remount 5000), false)
                handLifts).
  assert (Hin : In (act jsHypot (act jsHypot (mount 0) (Act (Tick handUp))) (Remount 5000), false)
                   (sessionTrace jsHypot (start 0) [Act (Tick handUp); Remount 5000])).
  { right. right. left. reflexivity. }
  specialize (H Hin). vm_compute in H. apply H. reflexivity.
Qed.

(** A hand lift, a remount, then a squat frame a second later, which is a
    flush: the store is within the buffer again. *)
Lemma store_within_buffer_once_settled_witness :
  let acts := [Act (Tick handUp); Remount 5000; Act (Tick (squatDown 6000))] in
  let s := nth 3 (sessionTrace jsHypot (start 0) acts) (start 0) in
  In s (sessionTrace jsHypot (start 0) acts)
  /\ snd s = true
  /\ forall k, get (providerCounts (fst s)) k <= get (localCountsRef (fst s)) k.
Proof.
  assert (Hin : In (nth 3 (sessionTrace jsHypot (start 0)
                             [Act (Tick handUp); Remount 5000; Act (Tick (squatDown 6000))])
                        (start 0))
                   (sessionTrace jsHypot (start 0)
                      [Act (Tick handUp); Remount 5000; Act (Tick (squatDown 6000))])).
  { right. right. right. left. reflexivity. }
  split; [exact Hin|]. split; [reflexivity|].
  exact (proj2 (proj2 (proj2 (proj2 (proj2 (store_within_buffer_once_settled jsHypot 0)))))
           [Act (Tick handUp); Remount 5000; Act (Tick (squatDown 6000))] _ Hin eq_refl).
Defined.


